(** * trafikkflyt: the NVDB acquisition pipeline of [ssv.py]

    A shallow embedding of [src/ssv.py]: the bounding-box partitioner, the
    catalog fetcher, the per-id detail cache, the driver that aggregates and
    deduplicates object ids, and the colour scale of the map renderer.

    Conventions of the embedding.
    - A Python number is an [int] (unbounded, [Z]) or a [float] (IEEE 754
      binary64, with the arithmetic of the reference specification
      [SpecFloat]: the exact operation followed by rounding to nearest, ties
      to even).  Arithmetic on two [int]s is exact, true division ([/])
      always gives a [float], and an [int] that meets a [float] is converted
      first.  A division by zero raises [ZeroDivisionError] and an [int] too
      large for a [float] raises [OverflowError], as in Python.
    - A Python call either returns or raises: [result].  Code that touches
      the file system, the network or standard output runs in the monad [M]
      over an explicit [world]; the world survives an exception, so what was
      written before a raise stays written.
    - A text that is handed to [json.loads]/[json.load] is identified with
      the outcome of parsing it ([payload]): the JSON value it denotes, or
      malformed.  [json.dump] of a value writes a text that parses back to
      that value.
    - The order in which a [set] is iterated is that of the slots of
      CPython's hash table; the slot of each element is a parameter
      ([slot]) of the code that iterates. *)

From Stdlib Require Import ZArith Lia List SpecFloat.
From stdpp Require Import base option list gmap sets strings pretty.

Set Warnings "-register-all,-clear-no-such-hyp".
Local Open Scope Z_scope.

(** ** Python outcomes *)

Inductive exn : Set :=
  | ZeroDivisionError
  | OverflowError
  | ValueError
  | CalledProcessError
  | UnicodeDecodeError
  | JSONDecodeError
  | KeyError
  | TypeError
  | AttributeError
  | FileNotFoundError
  | IsADirectoryError
  | FileExistsError
  | GEOSException.

Inductive result (A : Type) : Type :=
  | Ok (a : A)
  | Raise (e : exn).
Arguments Ok {A} a.
Arguments Raise {A} e.

Definition rbind {A B} (r : result A) (k : A -> result B) : result B :=
  match r with
  | Ok a => k a
  | Raise e => Raise e
  end.

Notation "'let?' x ':=' r 'in' k" := (rbind r (fun x => k))
  (at level 10, x pattern, r at level 100, k at level 200).

(** [[f(x) for x in l]]: the first element whose evaluation raises ends the
    comprehension. *)
Fixpoint rmap {A B} (f : A -> result B) (l : list A) : result (list B) :=
  match l with
  | [] => Ok []
  | x :: l' => let? y := f x in let? ys := rmap f l' in Ok (y :: ys)
  end.

(** A [for] loop threading one variable. *)
Fixpoint rfold {A S} (f : S -> A -> result S) (s : S) (l : list A) : result S :=
  match l with
  | [] => Ok s
  | x :: l' => let? s' := f s x in rfold f s' l'
  end.

(** ** Python numbers *)

(** A binary64 float: sign, mantissa and exponent of a finite number, a
    signed zero, an infinity, or NaN. *)
Definition float : Set := spec_float.
Definition prec : Z := 53.
Definition emax : Z := 1024.

Definition fadd : float -> float -> float := SFadd prec emax.
Definition fsub : float -> float -> float := SFsub prec emax.
Definition fmul : float -> float -> float := SFmul prec emax.
Definition fdiv : float -> float -> float := SFdiv prec emax.

Inductive num : Set :=
  | PInt (n : Z)
  | PFloat (x : float).

(** The float nearest to an integer. *)
Definition float_of_Z (n : Z) : float := binary_normalize prec emax n 0 false.

(** [float(n)], also the implicit conversion of an [int] operand that meets
    a [float] operand. *)
Definition py_float (n : Z) : result float :=
  match float_of_Z n with
  | S754_infinity _ => Raise OverflowError
  | x => Ok x
  end.

Definition to_float (a : num) : result float :=
  match a with
  | PInt n => py_float n
  | PFloat x => Ok x
  end.

(** [a + b], [a - b], [a * b]: exact on two [int]s, otherwise in floats,
    the left operand converted first; a float result out of range is an
    infinity, not an exception. *)
Definition arith (int_op : Z -> Z -> Z) (float_op : float -> float -> float)
    (a b : num) : result num :=
  match a, b with
  | PInt m, PInt n => Ok (PInt (int_op m n))
  | _, _ =>
      let? x := to_float a in
      let? y := to_float b in
      Ok (PFloat (float_op x y))
  end.

Definition py_add : num -> num -> result num := arith Z.add fadd.
Definition py_sub : num -> num -> result num := arith Z.sub fsub.
Definition py_mul : num -> num -> result num := arith Z.mul fmul.

(** An integer as an unrounded float: mantissa [|n|], exponent 0. *)
Definition Z_as_float (n : Z) : float :=
  match n with
  | 0 => S754_zero false
  | Zpos p => S754_finite false p 0
  | Zneg p => S754_finite true p 0
  end.

(** True division [a / b].  The quotient of two [int]s is the float nearest
    to the exact quotient. *)
Definition py_truediv (a b : num) : result num :=
  match a, b with
  | PInt m, PInt n =>
      if n =? 0 then Raise ZeroDivisionError
      else
        match fdiv (Z_as_float m) (Z_as_float n) with
        | S754_infinity _ => Raise OverflowError
        | q => Ok (PFloat q)
        end
  | _, _ =>
      let? x := to_float a in
      let? y := to_float b in
      match y with
      | S754_zero _ => Raise ZeroDivisionError
      | _ => Ok (PFloat (fdiv x y))
      end
  end.

(** [int(a)]: truncation towards zero. *)
Definition py_int (a : num) : result Z :=
  match a with
  | PInt n => Ok n
  | PFloat S754_nan => Raise ValueError
  | PFloat (S754_infinity _) => Raise OverflowError
  | PFloat (S754_zero _) => Ok 0
  | PFloat (S754_finite s m e) => Ok (cond_Zopp s (Z.shiftl (Zpos m) e))
  end.

(** Comparison by value; nothing compares with NaN. *)
Definition float_compare_Z (x : float) (n : Z) : option comparison :=
  match x with
  | S754_nan => None
  | S754_infinity s => Some (if s then Lt else Gt)
  | S754_zero _ => Some (0 ?= n)
  | S754_finite s m e =>
      let v := cond_Zopp s (Zpos m) in
      Some (if 0 <=? e then Z.shiftl v e ?= n else v ?= Z.shiftl n (- e))
  end.

Definition py_compare (a b : num) : option comparison :=
  match a, b with
  | PInt m, PInt n => Some (m ?= n)
  | PFloat x, PFloat y => SFcompare x y
  | PFloat x, PInt n => float_compare_Z x n
  | PInt m, PFloat y => CompOpp <$> float_compare_Z y m
  end.


Definition py_gt (a b : num) : bool :=
  match py_compare a b with Some Gt => true | _ => false end.

(** The finite floats with exponent at most [E] and magnitude below
    [2 ^ M]; used to show that a computation stays clear of the infinities. *)
Definition small (E M : Z) (x : float) : Prop :=
  match x with
  | S754_zero _ => True
  | S754_finite _ m e => e <= E /\ Zdigits2 (Zpos m) + e <= M
  | _ => False
  end.

(** ** Geometry partitioner *)

(** [(min_x, min_y, max_x, max_y)] *)
Definition BoundingBox : Type := (num * num * num * num)%type.

(** [range(n)] *)
Definition py_range (n : Z) : list Z := map Z.of_nat (seq 0 (Z.to_nat n)).

(** Lines 21-25: one sub-box. *)
Definition sub_box (min_x min_y x_step y_step : num) (i j : Z)
  : result BoundingBox :=
  let? ix := py_mul (PInt i) x_step in
  let? sub_min_x := py_add min_x ix in
  let? jy := py_mul (PInt j) y_step in
  let? sub_min_y := py_add min_y jy in
  let? sub_max_x := py_add sub_min_x x_step in
  let? sub_max_y := py_add sub_min_y y_step in
  Ok (sub_min_x, sub_min_y, sub_max_x, sub_max_y).

(** Lines 19-26: the nested loops that append the sub-boxes. *)
Definition grid (min_x min_y x_step y_step : num) (grid_size : Z)
  : result (list BoundingBox) :=
  let? rows :=
    rmap (fun i =>
            rmap (fun j => sub_box min_x min_y x_step y_step i j)
                 (py_range grid_size))
         (py_range grid_size) in
  Ok (concat rows).

Definition split_bounding_box (bbox : BoundingBox) (grid_size : Z)
  : result (list BoundingBox) :=
  let '(min_x, min_y, max_x, max_y) := bbox in
  let? width := py_sub max_x min_x in
  let? x_step := py_truediv width (PInt grid_size) in
  let? height := py_sub max_y min_y in
  let? y_step := py_truediv height (PInt grid_size) in
  grid min_x min_y x_step y_step grid_size.

(** Geometry of boxes, used to state the partition properties. *)
Definition bb_min_x (b : BoundingBox) : num := b.1.1.1.
Definition bb_min_y (b : BoundingBox) : num := b.1.1.2.
Definition bb_max_x (b : BoundingBox) : num := b.1.2.
Definition bb_max_y (b : BoundingBox) : num := b.2.


(** The numbers whose conversion to [float] cannot overflow, whatever
    they are added to or subtracted from within the partitioner. *)
Definition fits (a : num) : Prop :=
  match a with
  | PInt n => Z.abs n < 2 ^ 1022
  | PFloat _ => True
  end.

(** Sub-box [(i, j)] in floats: [lo_x], [lo_y] are the lower corner of the
    box and [xs], [ys] the steps. *)
Definition tile (lo_x lo_y xs ys : float) (i j : Z) : BoundingBox :=
  let sub_min_x := fadd lo_x (fmul (float_of_Z i) xs) in
  let sub_min_y := fadd lo_y (fmul (float_of_Z j) ys) in
  (PFloat sub_min_x, PFloat sub_min_y,
   PFloat (fadd sub_min_x xs), PFloat (fadd sub_min_y ys)).

(** ** JSON values as Python sees them *)

(** The hashable scalars.  JSON [null] is Python's [None]. *)
Inductive atom : Set :=
  | ANone
  | ABool (b : bool)
  | AInt (n : Z)
  | AStr (s : string).

(** Numbers are the integers: object ids, property codes and traffic counts
    are integers in NVDB responses. An object is the parsed [dict], looked up
    by its first binding of a key. *)
Inductive json : Set :=
  | JAtom (a : atom)
  | JArray (l : list json)
  | JObject (kvs : list (string * json)).

Abbreviation JNone := (JAtom ANone).
Abbreviation JInt n := (JAtom (AInt n)).
Abbreviation JStr s := (JAtom (AStr s)).

Fixpoint assoc (k : string) (kvs : list (string * json)) : option json :=
  match kvs with
  | [] => None
  | (k', v) :: kvs' => if String.eqb k k' then Some v else assoc k kvs'
  end.

Fixpoint chars (s : string) : list json :=
  match s with
  | EmptyString => []
  | String c s' => JStr (String c EmptyString) :: chars s'
  end.

(** [x[key]] with a [str] key. *)
Definition py_getitem (x : json) (key : string) : result json :=
  match x with
  | JObject kvs =>
      match assoc key kvs with
      | Some v => Ok v
      | None => Raise KeyError
      end
  | _ => Raise TypeError
  end.

(** [x.get(key, default)]: only a [dict] has the method. *)
Definition py_get (x : json) (key : string) (default : json) : result json :=
  match x with
  | JObject kvs =>
      match assoc key kvs with
      | Some v => Ok v
      | None => Ok default
      end
  | _ => Raise AttributeError
  end.

(** [for v in x]: a list yields its elements, a dict its keys, a string
    its characters; the other scalars are not iterable. *)
Definition py_iter (x : json) : result (list json) :=
  match x with
  | JArray l => Ok l
  | JObject kvs => Ok (map (fun kv => JStr kv.1) kvs)
  | JAtom (AStr s) => Ok (chars s)
  | JAtom _ => Raise TypeError
  end.

(** Truthiness, as tested by [if x]. *)
Definition py_truthy (x : json) : bool :=
  match x with
  | JAtom ANone => false
  | JAtom (ABool b) => b
  | JAtom (AInt n) => negb (Z.eqb n 0)
  | JAtom (AStr s) => negb (String.eqb s "")
  | JArray l => negb (Nat.eqb (length l) 0)
  | JObject kvs => negb (Nat.eqb (length kvs) 0)
  end.

Definition is_None (x : json) : bool :=
  match x with JAtom ANone => true | _ => false end.

(** [x == n] for an integer literal [n] other than 0 and 1 (a [bool] equals
    only those two). *)
Definition py_eq_int (x : json) (n : Z) : bool :=
  match x with JAtom (AInt m) => Z.eqb m n | _ => false end.

(** [str(a)], as interpolated by an f-string. *)
Definition py_str (a : atom) : string :=
  match a with
  | ANone => "None"
  | ABool true => "True"
  | ABool false => "False"
  | AInt n => pretty n
  | AStr s => s
  end.

(** Hashing: lists and dicts are unhashable. *)
Definition py_hashable (x : json) : result atom :=
  match x with
  | JAtom a => Ok a
  | _ => Raise TypeError
  end.

(** Equality classes of the hashable scalars under Python's [==]:
    [True == 1] and [False == 0]. *)
Definition py_key (a : atom) : option (Z + string) :=
  match a with
  | ANone => None
  | ABool b => Some (inl (if b then 1 else 0))
  | AInt n => Some (inl n)
  | AStr s => Some (inr s)
  end.

Definition key_eqb (a b : atom) : bool := bool_decide (py_key a = py_key b).

(** [set.add]: an element equal to one already present is dropped. *)
Fixpoint set_insert (s : list atom) (a : atom) : list atom :=
  match s with
  | [] => [a]
  | b :: s' => if key_eqb b a then s else b :: set_insert s' a
  end.

(** Insertion of [a] before the first element of a higher rank. *)
Fixpoint slot_insert (rank : atom -> nat) (a : atom) (s : list atom)
  : list atom :=
  match s with
  | [] => [a]
  | b :: s' =>
      if (rank a <? rank b)%nat then a :: s else b :: slot_insert rank a s'
  end.

(** [list(set(l))].  The elements of [l] are added one by one; the list
    then enumerates the hash table slot by slot.  [slot elements a] is the
    slot in which [a] sits once [elements] have been added in that order:
    it depends on the hash function (which, for strings, changes from one
    process to the next) and on the collisions met on the way, so it is a
    parameter. *)
Definition py_set (slot : list atom -> atom -> nat) (l : list atom)
  : list atom :=
  let elements := fold_left set_insert l [] in
  foldr (slot_insert (slot elements)) [] elements.

(** ** The world: file system, remote service, standard output *)

(** A relative path, by components: [data/svv/x.json] is
    [["data"; "svv"; "x.json"]]; [[]] is the working directory. *)
Definition path : Type := list string.

(** What a text is to [json.loads]. *)
Inductive payload : Set :=
  | Parses (j : json)
  | Malformed.

(** The two [curl] invocations, by their variable parts. *)
Inductive request : Type :=
  | CatalogReq (bbox : BoundingBox)
  | DetailReq (object_id : atom).

(** What running [curl] comes to for [subprocess.run]: there is no such
    executable; what the process wrote is not text in the locale's encoding;
    it exited with a non-zero status; or it exited with status 0 and wrote
    the text [body]. *)
Inductive curl_outcome : Set :=
  | NoExecutable
  | Undecodable
  | ExitNonZero
  | Stdout (body : payload).

(** The remote service answers a request in view of the requests issued
    before it, so that two equal requests may be answered differently. *)
Definition service : Type := list request -> request -> curl_outcome.

(** The printed lines, by message and interpolated values. *)
Inductive event : Type :=
  | KartutsnittFetchError
  | KartutsnittParseError
  | ObjectLoaded (object_id : atom) (filename : path)
  | ObjectSaved (object_id : atom) (filename : path)
  | ObjectFetchError (object_id : atom)
  | ObjectParseError (object_id : atom)
  | FetchingSubBox (bbox : BoundingBox)
  | LoadedObjectIds (filename : path)
  | SavedObjectIds (filename : path).

(** [requests] lists the [curl] commands run so far, whatever became of
    them. *)
Record world : Type := World {
  dirs : gset path;
  files : gmap path payload;
  requests : list request;
  output : list event
}.

Definition M (A : Type) : Type := world -> result A * world.

Definition ret {A} (a : A) : M A := fun w => (Ok a, w).
Definition lift {A} (r : result A) : M A := fun w => (r, w).

Definition bind {A B} (m : M A) (k : A -> M B) : M B :=
  fun w =>
    match m w with
    | (Ok a, w') => k a w'
    | (Raise e, w') => (Raise e, w')
    end.

Notation "'let!' x ':=' m 'in' k" := (bind m (fun x => k))
  (at level 10, x pattern, m at level 100, k at level 200).

(** [try: m except ...]: [handler e] is the body of the clause that matches
    [e], if one does. *)
Definition try_except {A} (m : M A) (handler : exn -> option (M A)) : M A :=
  fun w =>
    match m w with
    | (Ok a, w') => (Ok a, w')
    | (Raise e, w') =>
        match handler e with
        | Some h => h w'
        | None => (Raise e, w')
        end
    end.

Definition print (ev : event) : M unit :=
  fun w => (Ok tt, World (dirs w) (files w) (requests w) (output w ++ [ev])).

Definition parent (p : path) : path := removelast p.

Definition has_dir (p : path) (w : world) : bool :=
  match p with
  | [] => true
  | _ => bool_decide (p ∈ dirs w)
  end.

Definition has_file (p : path) (w : world) : bool :=
  match files w !! p with
  | Some _ => true
  | None => false
  end.

(** [os.path.exists(p)] *)
Definition path_exists (p : path) : M bool :=
  fun w => (Ok (has_file p w || has_dir p w), w).

(** [os.makedirs(p, exist_ok=True)]: the directory and its missing
    ancestors are created. *)
Definition ancestors (p : path) : list path :=
  map (fun n => take n p) (seq 1 (length p)).

Definition makedirs (p : path) : M unit :=
  fun w =>
    if has_file p w then (Raise FileExistsError, w)
    else (Ok tt, World (dirs w ∪ list_to_set (ancestors p)) (files w)
                       (requests w) (output w)).

(** [open(p, "r")] and reading the whole text. *)
Definition open_r (p : path) : M payload :=
  fun w =>
    match files w !! p with
    | Some c => (Ok c, w)
    | None =>
        if has_dir p w then (Raise IsADirectoryError, w)
        else (Raise FileNotFoundError, w)
    end.

(** [json.load(file)] / [json.loads(text)] *)
Definition json_loads (c : payload) : result json :=
  match c with
  | Parses j => Ok j
  | Malformed => Raise JSONDecodeError
  end.

(** [with open(p, "w") as file: json.dump(j, file, ...)]: the file is
    created in an existing directory; a missing directory is not created. *)
Definition open_w_dump (p : path) (j : json) : M unit :=
  fun w =>
    if has_dir p w then (Raise IsADirectoryError, w)
    else if has_dir (parent p) w then
      (Ok tt, World (dirs w) (<[p := Parses j]> (files w))
                    (requests w) (output w))
    else (Raise FileNotFoundError, w).

(** The world after one more request and one more printed line, with the
    file system untouched. *)
Definition after_request (w : world) (req : request) (ev : event) : world :=
  World (dirs w) (files w) (requests w ++ [req]) (output w ++ [ev]).

Arguments has_dir : simpl never.
Arguments has_file : simpl never.

(** ** The pipeline *)

Definition object_file (object_id : atom) : path :=
  ["data"; "svv"; "object_ids"; py_str object_id +:+ ".json"].

Definition object_ids_file : path := ["data"; "svv"; "all_object_ids.json"].

Definition initial_bbox : BoundingBox :=
  (PInt 250000, PInt 7000000, PInt 300000, PInt 7100000).

Definition grid_size : Z := 20.

(** Lines 108-120 of [fetch_object_details]: geometry and traffic volume
    (property code 4623, the last match wins) of a detail response. *)
Definition extract_details (response_json : json) : result (json * json) :=
  let ådt_value := JNone in
  let? geometri := py_getitem response_json "geometri" in
  let? geometry := py_getitem geometri "wkt" in
  let? egenskaper := py_get response_json "egenskaper" (JArray []) in
  let? items := py_iter egenskaper in
  let? ådt_value :=
    rfold (fun ådt_value egenskap =>
             let? id := py_getitem egenskap "id" in
             if py_eq_int id 4623 then py_getitem egenskap "verdi"
             else Ok ådt_value)
          ådt_value items in
  Ok (geometry, ådt_value).

Section Pipeline.

(** The remote NVDB service that [curl] talks to. *)
Variable curl : service.

(** The slots of the hash table of this process. *)
Variable slot : list atom -> atom -> nat.

(** [subprocess.run(curl_command, capture_output=True, text=True,
    check=True).stdout]: the output is decoded before the exit status is
    checked. *)
Definition subprocess_run (req : request) : M payload :=
  fun w =>
    let w' := World (dirs w) (files w) (requests w ++ [req]) (output w) in
    match curl (requests w) req with
    | NoExecutable => (Raise FileNotFoundError, w')
    | Undecodable => (Raise UnicodeDecodeError, w')
    | ExitNonZero => (Raise CalledProcessError, w')
    | Stdout body => (Ok body, w')
    end.

Definition fetch_nvdb_kartutsnitt (bbox : BoundingBox) : M (list json) :=
  try_except
    (let! stdout := subprocess_run (CatalogReq bbox) in
     let! response_json := lift (json_loads stdout) in
     let! objekter := lift (py_get response_json "objekter" (JArray [])) in
     let! items := lift (py_iter objekter) in
     let! object_ids := lift (rmap (fun obj => py_getitem obj "id") items) in
     ret object_ids)
    (fun e =>
       match e with
       | CalledProcessError =>
           Some (let! _ := print KartutsnittFetchError in ret [])
       | JSONDecodeError =>
           Some (let! _ := print KartutsnittParseError in ret [])
       | _ => None
       end).

(** Lines 70-106: the response to extract from, or [None] where the
    function returns [None, None] early. *)
Definition load_or_fetch (object_id : atom) : M (option json) :=
  let filename := object_file object_id in
  let! cached := path_exists filename in
  if cached then
    let! text := open_r filename in
    let! response_json := lift (json_loads text) in
    let! _ := print (ObjectLoaded object_id filename) in
    ret (Some response_json)
  else
    try_except
      (let! stdout := subprocess_run (DetailReq object_id) in
       let! response_json := lift (json_loads stdout) in
       let! _ := open_w_dump filename response_json in
       let! _ := print (ObjectSaved object_id filename) in
       ret (Some response_json))
      (fun e =>
         match e with
         | CalledProcessError =>
             Some (let! _ := print (ObjectFetchError object_id) in ret None)
         | JSONDecodeError =>
             Some (let! _ := print (ObjectParseError object_id) in ret None)
         | _ => None
         end).

Definition fetch_object_details (object_id : atom) : M (json * json) :=
  let! response := load_or_fetch object_id in
  match response with
  | None => ret (JNone, JNone)
  | Some response_json => lift (extract_details response_json)
  end.

(** Lines 241-244: the loop over the tiles. *)
Fixpoint fetch_sub_boxes (sub_boxes : list BoundingBox)
    (all_object_ids : list json) : M (list json) :=
  match sub_boxes with
  | [] => ret all_object_ids
  | bbox :: rest =>
      let! _ := print (FetchingSubBox bbox) in
      let! object_ids := fetch_nvdb_kartutsnitt bbox in
      fetch_sub_boxes rest (all_object_ids ++ object_ids)
  end.

(** Step 1, lines 230-252: the aggregated, deduplicated ids. *)
Definition aggregate_object_ids (sub_boxes : list BoundingBox)
  : M (list atom) :=
  let! cached := path_exists object_ids_file in
  let! all_object_ids :=
    (if cached then
       let! text := open_r object_ids_file in
       let! loaded := lift (json_loads text) in
       let! _ := print (LoadedObjectIds object_ids_file) in
       ret loaded
     else
       let! fetched := fetch_sub_boxes sub_boxes [] in
       ret (JArray fetched)) in
  let! items := lift (py_iter all_object_ids) in
  let! hashed := lift (rmap py_hashable items) in
  let all_object_ids := py_set slot hashed in
  let! _ := open_w_dump object_ids_file (JArray (map JAtom all_object_ids)) in
  let! _ := print (SavedObjectIds object_ids_file) in
  ret all_object_ids.

(** Step 2, lines 255-259: the loop over the ids. *)
Fixpoint collect_roads_data (all_object_ids : list atom)
    (roads_data : list (json * json)) : M (list (json * json)) :=
  match all_object_ids with
  | [] => ret roads_data
  | object_id :: rest =>
      let! (geometry, ådt_value) := fetch_object_details object_id in
      collect_roads_data rest
        (if py_truthy geometry && negb (is_None ådt_value)
         then roads_data ++ [(geometry, ådt_value)]
         else roads_data)
  end.

(** The script body up to the call of [generate_map]: the result is the
    [roads_data] handed to the renderer. *)
Definition main : M (list (json * json)) :=
  let! _ := makedirs ["data"] in
  let! _ := makedirs ["data"; "svv"] in
  let! sub_boxes := lift (split_bounding_box initial_bbox grid_size) in
  let! all_object_ids := aggregate_object_ids sub_boxes in
  collect_roads_data all_object_ids [].

End Pipeline.

(** One turn of the loop over the tiles, and a run of the loop in which
    every turn returns: [tile_run curl w tiles per_tile w'] relates the
    tiles to the id lists they contribute, in order. *)
Definition fetch_tile (curl : service) (bbox : BoundingBox) : M (list json) :=
  let! _ := print (FetchingSubBox bbox) in
  fetch_nvdb_kartutsnitt curl bbox.

Inductive tile_run (curl : service)
  : world -> list BoundingBox -> list (list json) -> world -> Prop :=
  | tile_run_nil w : tile_run curl w [] [] w
  | tile_run_cons w bbox rest object_ids w1 per_tile w2 :
      fetch_tile curl bbox w = (Ok object_ids, w1) ->
      tile_run curl w1 rest per_tile w2 ->
      tile_run curl w (bbox :: rest) (object_ids :: per_tile) w2.

(** ** Map renderer: the colour scale *)

Definition generate_color (ådt_value min_ådt max_ådt : num) : result string :=
  let? offset := py_sub ådt_value min_ådt in
  let? span := py_sub max_ådt min_ådt in
  let? norm_value := py_truediv offset span in
  let? red := py_mul norm_value (PInt 255) in
  let? r := py_int red in
  let? rest := py_sub (PInt 1) norm_value in
  let? green := py_mul rest (PInt 255) in
  let? g := py_int green in
  let b := 0 in
  Ok ("rgb(" +:+ pretty r +:+ "," +:+ pretty g +:+ "," +:+ pretty b +:+ ")").

(** [min] and [max] of a non-empty list: the first extremal element. *)
Definition py_min (x : Z) (l : list Z) : Z :=
  fold_left (fun m y => if m <=? y then m else y) l x.

Definition py_max (x : Z) (l : list Z) : Z :=
  fold_left (fun m y => if y <=? m then m else y) l x.

(** [roads_data]: pairs of a WKT text and a traffic volume, either of which
    may be [None].  The traffic volumes are [int]s, as the JSON numbers
    are. *)
Definition roads : Type := list (option string * option Z).

(** Lines 153-156 of [generate_map]. *)
Definition ådt_values (roads_data : roads) : list Z :=
  omap (fun road => road.2) roads_data.

Definition min_ådt (roads_data : roads) : Z :=
  match ådt_values roads_data with
  | [] => 0
  | x :: l => py_min x l
  end.

Definition max_ådt (roads_data : roads) : Z :=
  match ådt_values roads_data with
  | [] => 10000
  | x :: l => py_max x l
  end.

(** What [shapely.wkt.loads] returns, as far as [generate_map] looks. *)
Inductive shape : Type :=
  | MultiLineString (geoms : list (list (float * float)))
  | LineString (coords : list (float * float))
  | OtherGeometry.

(** One [L.polyline(...)] statement of the generated page. *)
Record polyline : Type := Polyline {
  coordinates : list (float * float);
  color : string;
  popup : Z
}.

Section Renderer.

(** [shapely.wkt.loads] and [transformer.transform] of pyproj. *)
Variable loads : string -> result shape.
Variable transform : float -> float -> float * float.

Definition transform_coordinates (coords : list (float * float))
  : list (float * float) :=
  map (fun c => transform c.1 c.2) coords.

Definition draw (coords : list (float * float)) (ådt_value lo hi : Z)
  : result polyline :=
  let transformed_coords := transform_coordinates coords in
  let coordinates := map (fun c => (c.2, c.1)) transformed_coords in
  let? color := generate_color (PInt ådt_value) (PInt lo) (PInt hi) in
  Ok (Polyline coordinates color ådt_value).

(** The polylines written between the fixed head and tail of the page, in
    order; the page itself and its file are not modelled. *)
Definition generate_map (roads_data : roads) : result (list polyline) :=
  let lo := min_ådt roads_data in
  let hi := max_ådt roads_data in
  rfold (fun html_content road =>
           match road with
           | (Some geometry, Some ådt_value) =>
               let? shape := loads geometry in
               match shape with
               | MultiLineString geoms =>
                   let? lines :=
                     rmap (fun line => draw line ådt_value lo hi) geoms in
                   Ok (html_content ++ lines)
               | LineString coords =>
                   let? line := draw coords ådt_value lo hi in
                   Ok (html_content ++ [line])
               | OtherGeometry => Ok html_content
               end
           | _ => Ok html_content
           end)
        [] roads_data.

End Renderer.

(** Lines 179-205, one turn of the loop of [generate_map] over
    [roads_data], for a scale from [lo] to [hi]: [generate_map] folds it
    over the rows. *)
Definition draw_road (loads : string -> result shape)
    (transform : float -> float -> float * float) (lo hi : Z)
    (html_content : list polyline) (road : option string * option Z)
  : result (list polyline) :=
  match road with
  | (Some geometry, Some ådt_value) =>
      let? shape := loads geometry in
      match shape with
      | MultiLineString geoms =>
          let? lines :=
            rmap (fun line => draw transform line ådt_value lo hi) geoms in
          Ok (html_content ++ lines)
      | LineString coords =>
          let? line := draw transform coords ådt_value lo hi in
          Ok (html_content ++ [line])
      | OtherGeometry => Ok html_content
      end
  | _ => Ok html_content
  end.

(** ** The colour scale of [telia.py] *)

Module Telia.

(** [generate_color], nested in [TeliaDataProcessor.generate_map], lines
    107-112; [min_val] and [max_val] are the variables it closes over. *)
Definition generate_color (min_val max_val val : num) : result string :=
  let? norm_value :=
    if py_gt max_val min_val then
      let? offset := py_sub val min_val in
      let? span := py_sub max_val min_val in
      py_truediv offset span
    else Ok (PInt 0) in
  let? red := py_mul norm_value (PInt 255) in
  let? r := py_int red in
  let? rest := py_sub (PInt 1) norm_value in
  let? green := py_mul rest (PInt 255) in
  let? g := py_int green in
  Ok ("rgb(" +:+ pretty r +:+ "," +:+ pretty g +:+ ",0)").

End Telia.
(** * Properties *)

(** ** Binary64 arithmetic *)

Lemma digits2_pos_size (p : positive) : digits2_pos p = Pos.size p.
Proof. induction p as [p IH|p IH|]; simpl; by rewrite ?IH. Qed.

Lemma Zdigits2_nonneg (m : Z) : 0 <= Zdigits2 m.
Proof. destruct m; simpl; lia. Qed.

Lemma Zdigits2_log2 (p : positive) : Zdigits2 (Zpos p) = Z.log2 (Zpos p) + 1.
Proof.
  simpl. rewrite digits2_pos_size. destruct p; simpl; lia.
Qed.

(** [m] has at most [k] binary digits exactly when it is below [2 ^ k]. *)
Lemma Zdigits2_le (m k : Z) : 0 <= m -> 0 <= k -> Zdigits2 m <= k <-> m < 2 ^ k.
Proof.
  intros Hm Hk. destruct m as [|p|p]; [|clear Hm|lia].
  - simpl. split; [intros _; by apply Z.pow_pos_nonneg|done].
  - rewrite Zdigits2_log2. rewrite (Z.log2_lt_pow2 (Zpos p) k) by lia. lia.
Qed.

Lemma Zdigits2_bound (m : Z) : 0 <= m -> m < 2 ^ Zdigits2 m.
Proof.
  intros Hm. apply Zdigits2_le; [done|apply Zdigits2_nonneg|lia].
Qed.

Lemma Zdigits2_mono (m n : Z) : 0 <= m <= n -> Zdigits2 m <= Zdigits2 n.
Proof.
  intros [Hm Hn]. apply Zdigits2_le; [done|apply Zdigits2_nonneg|].
  pose proof (Zdigits2_bound n). lia.
Qed.

Lemma Zdigits2_shiftr (m k : Z) :
  0 <= m -> 0 <= k -> Zdigits2 (Z.shiftr m k) <= Z.max (Zdigits2 m - k) 0.
Proof.
  intros Hm Hk. pose proof (Zdigits2_bound m Hm) as Hb.
  pose proof (Zdigits2_nonneg m) as Hd.
  rewrite Z.shiftr_div_pow2 by done.
  assert (0 < 2 ^ k) by (by apply Z.pow_pos_nonneg).
  apply Zdigits2_le; [by apply Z.div_pos|lia|].
  destruct (Z.le_gt_cases k (Zdigits2 m)) as [Hle|Hgt].
  - rewrite Z.max_l by lia. apply Z.div_lt_upper_bound; [done|].
    rewrite <- Z.pow_add_r by lia. by replace (k + (Zdigits2 m - k)) with (Zdigits2 m) by lia.
  - rewrite Z.max_r by lia. rewrite Z.div_small; [done|].
    split; [done|]. eapply Z.lt_le_trans; [exact Hb|].
    apply Z.pow_le_mono_r; lia.
Qed.

Lemma Zdigits2_succ (m : Z) : 0 <= m -> Zdigits2 (m + 1) <= Zdigits2 m + 1.
Proof.
  intros Hm. pose proof (Zdigits2_bound m Hm). pose proof (Zdigits2_nonneg m).
  apply Zdigits2_le; [lia|lia|]. rewrite Z.pow_add_r by lia. lia.
Qed.

Lemma Zdigits2_mul (m n : Z) :
  0 <= m -> 0 <= n -> Zdigits2 (m * n) <= Zdigits2 m + Zdigits2 n.
Proof.
  intros Hm Hn. pose proof (Zdigits2_bound m Hm). pose proof (Zdigits2_bound n Hn).
  pose proof (Zdigits2_nonneg m). pose proof (Zdigits2_nonneg n).
  apply Zdigits2_le; [lia|lia|]. rewrite Z.pow_add_r by done. nia.
Qed.

Lemma shr_m_shr_1 (mrs : shr_record) :
  0 <= shr_m mrs -> shr_m (shr_1 mrs) = Z.shiftr (shr_m mrs) 1.
Proof.
  destruct mrs as [m r s]. simpl. intros Hm. rewrite <- Z.div2_spec.
  destruct m as [|[p|p|]|p]; try done; lia.
Qed.

Lemma shr_m_iter_pos (p : positive) (mrs : shr_record) :
  0 <= shr_m mrs ->
  shr_m (SpecFloat.iter_pos shr_1 p mrs) = Z.shiftr (shr_m mrs) (Zpos p).
Proof.
  revert mrs. induction p as [p IH|p IH|]; intros mrs Hm; simpl.
  - pose proof (shr_m_shr_1 mrs Hm) as H1.
    assert (0 <= shr_m (shr_1 mrs)) as H2
      by (rewrite H1; by apply Z.shiftr_nonneg).
    pose proof (IH _ H2) as H3.
    assert (0 <= shr_m (SpecFloat.iter_pos shr_1 p (shr_1 mrs))) as H4
      by (rewrite H3; by apply Z.shiftr_nonneg).
    rewrite (IH _ H4), H3, H1, !Z.shiftr_shiftr by lia.
    f_equal. lia.
  - pose proof (IH _ Hm) as H3.
    assert (0 <= shr_m (SpecFloat.iter_pos shr_1 p mrs)) as H4
      by (rewrite H3; by apply Z.shiftr_nonneg).
    rewrite (IH _ H4), H3, !Z.shiftr_shiftr by lia.
    f_equal. lia.
  - by apply shr_m_shr_1.
Qed.

Lemma shr_spec (mrs : shr_record) (e n : Z) :
  0 <= shr_m mrs ->
  shr_m (shr mrs e n).1 = Z.shiftr (shr_m mrs) (Z.max n 0) /\
  (shr mrs e n).2 = e + Z.max n 0.
Proof.
  intros Hm. destruct n as [|p|p]; simpl.
  - split; [done|lia].
  - split; [by apply shr_m_iter_pos|done].
  - split; [done|lia].
Qed.

Lemma shr_m_of_loc (m : Z) (l : location) : shr_m (shr_record_of_loc m l) = m.
Proof. by destruct l as [|[]]. Qed.

Lemma round_nearest_even_bound (m : Z) (l : location) :
  m <= round_nearest_even m l <= m + 1.
Proof. destruct l as [|[]]; simpl; [| |lia|lia]; try lia. destruct (Z.even m); lia. Qed.

Lemma binary_round_aux_small (s : bool) (m e : Z) (l : location) (E M : Z) :
  0 <= m -> e <= E -> Zdigits2 m + e <= M ->
  -1074 <= M <= 1023 -> M - 52 <= E <= 971 -> -1074 <= E ->
  small E (M + 1) (binary_round_aux prec emax s m e l) /\
  match binary_round_aux prec emax s m e l with
  | S754_finite _ _ e' => e <= e'
  | _ => True
  end.
Proof.
  intros Hm HeE HM HMb HE HE'. unfold binary_round_aux, shr_fexp.
  pose proof (Zdigits2_nonneg m) as Hd.
  destruct (shr_spec (shr_record_of_loc m l) e
              (fexp prec emax (Zdigits2 m + e) - e)) as [Hm1 He1];
    [by rewrite shr_m_of_loc|].
  rewrite shr_m_of_loc in Hm1.
  destruct (shr _ e _) as [mrs1 e1]. simpl in Hm1, He1.
  set (m2 := round_nearest_even (shr_m mrs1) (loc_of_shr_record mrs1)).
  pose proof (round_nearest_even_bound (shr_m mrs1) (loc_of_shr_record mrs1))
    as Hm2. fold m2 in Hm2.
  assert (0 <= shr_m mrs1) as Hm1pos
    by (rewrite Hm1; apply Z.shiftr_nonneg; lia).
  pose proof (Zdigits2_shiftr m (Z.max (fexp prec emax (Zdigits2 m + e) - e) 0)
                Hm ltac:(lia)) as Hd1.
  rewrite <- Hm1 in Hd1.
  assert (Zdigits2 m2 <= Zdigits2 (shr_m mrs1) + 1) as Hd2.
  { etrans; [apply (Zdigits2_mono m2 (shr_m mrs1 + 1)); lia|].
    by apply Zdigits2_succ. }
  destruct (shr_spec (shr_record_of_loc m2 loc_Exact) e1
              (fexp prec emax (Zdigits2 m2 + e1) - e1)) as [Hm3 He3];
    [simpl; lia|].
  simpl in Hm3.
  destruct (shr _ e1 _) as [mrs3 e3]. simpl in Hm3, He3.
  pose proof (Zdigits2_shiftr m2 (Z.max (fexp prec emax (Zdigits2 m2 + e1) - e1) 0)
                ltac:(lia) ltac:(lia)) as Hd3.
  rewrite <- Hm3 in Hd3.
  assert (0 <= shr_m mrs3) as Hm3pos
    by (rewrite Hm3; apply Z.shiftr_nonneg; lia).
  unfold fexp, emin, prec, emax in *.
  destruct (shr_m mrs3) as [|p|p] eqn:Hp; [done| |lia].
  assert (e3 <= 971) as Hfin by lia.
  rewrite (proj2 (Z.leb_le e3 (1024 - 53)) ltac:(lia)).
  simpl. simpl in Hd3. lia.
Qed.

Lemma small_weaken (E M E' M' : Z) (x : float) :
  small E M x -> E <= E' -> M <= M' -> small E' M' x.
Proof. destruct x as [| | |s m e]; simpl; try done. lia. Qed.

Lemma small_py_int (E M : Z) (x : float) :
  small E M x -> exists z, py_int (PFloat x) = Ok z.
Proof. destruct x as [| | |s m e]; simpl; try done; eauto. Qed.

Lemma digits2_pos_iter (m d : positive) :
  Zpos (digits2_pos (Pos.iter xO m d)) = Zpos (digits2_pos m) + Zpos d.
Proof.
  induction d as [|d IH] using Pos.peano_ind.
  - simpl. lia.
  - rewrite Pos.iter_succ. simpl. lia.
Qed.

Lemma shl_align_spec (m : positive) (e e0 : Z) :
  Zdigits2 (Zpos (shl_align m e e0).1) + (shl_align m e e0).2
  = Zdigits2 (Zpos m) + e /\
  (shl_align m e e0).2 = Z.min e e0.
Proof.
  unfold shl_align. destruct (e0 - e) as [|d|d] eqn:Hd; simpl.
  - lia.
  - lia.
  - rewrite digits2_pos_iter. lia.
Qed.

Lemma binary_round_small (s : bool) (m : positive) (e E M : Z) :
  e <= E -> Zdigits2 (Zpos m) + e <= M ->
  -1074 <= M <= 1023 -> M - 52 <= E <= 971 -> -1074 <= E ->
  small E (M + 1) (binary_round prec emax s m e).
Proof.
  intros He HM HMb HE HE'. unfold binary_round.
  destruct (shl_align_spec m e (fexp prec emax (Z.pos (digits2_pos m) + e)))
    as [Hmag Hez].
  destruct (shl_align m e _) as [mz ez]. simpl in Hmag, Hez, HM.
  apply binary_round_aux_small; try done; simpl; lia.
Qed.

Lemma binary_normalize_small (n e E M : Z) (sz : bool) :
  e <= E -> Zdigits2 n + e <= M ->
  -1074 <= M <= 1023 -> M - 52 <= E <= 971 -> -1074 <= E ->
  small E (M + 1) (binary_normalize prec emax n e sz).
Proof.
  intros He HM HMb HE HE'. destruct n as [|p|p]; simpl; [done| |];
    by apply binary_round_small.
Qed.

(** Integers below [2 ^ 1023] in magnitude convert to a float. *)
Lemma py_float_ok (n : Z) :
  Z.abs n < 2 ^ 1023 -> py_float n = Ok (float_of_Z n) /\ small 971 1024 (float_of_Z n).
Proof.
  intros Hn.
  assert (small 971 (1023 + 1) (float_of_Z n)) as Hs.
  { apply binary_normalize_small; try lia.
    replace (Zdigits2 n) with (Zdigits2 (Z.abs n)) by (by destruct n).
    rewrite Z.add_0_r. apply Zdigits2_le; lia. }
  split; [|done]. unfold py_float. by destruct (float_of_Z n).
Qed.

Lemma fmul_small (Ex Mx Ey My E : Z) (x y : float) :
  small Ex Mx x -> small Ey My y ->
  -1074 <= Mx + My <= 1023 -> Ex + Ey <= E -> Mx + My - 52 <= E <= 971 ->
  -1074 <= E ->
  small E (Mx + My + 1) (fmul x y).
Proof.
  intros Hx Hy HM HE1 HE2 HE3.
  destruct x as [sx|sx| |sx mx ex], y as [sy|sy| |sy my ey]; simpl in *;
    try done.
  apply binary_round_aux_small; try lia.
  pose proof (Zdigits2_mul (Zpos mx) (Zpos my) ltac:(lia) ltac:(lia)) as Hd.
  simpl in Hd. simpl. lia.
Qed.

Lemma Zdigits2_abs (n : Z) : Zdigits2 (Z.abs n) = Zdigits2 n.
Proof. by destruct n. Qed.

Lemma Zdigits2_sum (a b : Z) (k : Z) :
  0 <= k -> Z.abs a < 2 ^ k -> Z.abs b < 2 ^ k -> Zdigits2 (a + b) <= k + 1.
Proof.
  intros Hk Ha Hb. rewrite <- Zdigits2_abs.
  apply Zdigits2_le; [lia|lia|]. rewrite Z.pow_add_r by lia. lia.
Qed.

Lemma faddsub_small (Ex Mx Ey My E M : Z) (x y : float) :
  small Ex Mx x -> small Ey My y ->
  Mx <= M -> My <= M -> Ex <= E -> Ey <= E ->
  -1074 <= M + 1 <= 1023 -> M + 1 - 52 <= E <= 971 -> -1074 <= E ->
  small E (M + 2) (fadd x y) /\ small E (M + 2) (fsub x y).
Proof.
  intros Hx Hy HMx HMy HEx HEy HM HE HE'.
  destruct x as [sx|sx| |sx mx ex], y as [sy|sy| |sy my ey]; simpl in *;
    try done.
  - by destruct sx, sy.
  - split; lia.
  - split; lia.
  - destruct (shl_align_spec mx ex (Z.min ex ey)) as [Hmx Hex].
    destruct (shl_align_spec my ey (Z.min ex ey)) as [Hmy Hey].
    destruct (shl_align mx ex (Z.min ex ey)) as [mx' ex'].
    destruct (shl_align my ey (Z.min ex ey)) as [my' ey']. simpl in *.
    assert (0 <= M - Z.min ex ey) as Hk.
    { pose proof (Zdigits2_nonneg (Zpos mx)). simpl in *. lia. }
    assert (Z.abs (cond_Zopp sx (Z.pos mx')) < 2 ^ (M - Z.min ex ey)) as Hax.
    { replace (Z.abs (cond_Zopp sx (Z.pos mx'))) with (Z.pos mx')
        by (destruct sx; simpl; lia).
      apply Zdigits2_le; [lia|lia|]. simpl. lia. }
    assert (Z.abs (cond_Zopp sy (Z.pos my')) < 2 ^ (M - Z.min ex ey)) as Hay.
    { replace (Z.abs (cond_Zopp sy (Z.pos my'))) with (Z.pos my')
        by (destruct sy; simpl; lia).
      apply Zdigits2_le; [lia|lia|]. simpl. lia. }
    split.
    + replace (M + 2) with ((M + 1) + 1) by lia.
      apply binary_normalize_small; try lia.
      pose proof (Zdigits2_sum _ _ _ Hk Hax Hay). lia.
    + replace (M + 2) with ((M + 1) + 1) by lia.
      apply binary_normalize_small; try lia.
      assert (Z.abs (- cond_Zopp sy (Z.pos my')) < 2 ^ (M - Z.min ex ey)) as Hay'
        by lia.
      pose proof (Zdigits2_sum _ _ _ Hk Hax Hay') as Hs.
      rewrite Z.add_opp_r in Hs. lia.
Qed.

(** The quotient and the exponent that the division of two positive
    integers hands to the rounding step. *)
Lemma SFdiv_core_binary_int (a b : positive) :
  exists q e l,
    SFdiv_core_binary prec emax (Zpos a) 0 (Zpos b) 0 = (q, e, l) /\
    0 <= q /\ -1074 <= e <= 0 /\ q * Zpos b <= Zpos a * 2 ^ (- e).
Proof.
  unfold SFdiv_core_binary.
  set (e := Z.min (fexp prec emax (Zdigits2 (Z.pos a) + 0 - (Zdigits2 (Z.pos b) + 0)))
                  (0 - 0)).
  assert (-1074 <= e <= 0) as He
    by (unfold e, fexp, SpecFloat.emin, prec, emax; lia).
  set (m' := match 0 - 0 - e with
             | 0 => Z.pos a
             | Z.pos _ => Z.shiftl (Z.pos a) (0 - 0 - e)
             | Z.neg _ => 0
             end).
  assert (m' = Zpos a * 2 ^ (- e)) as Hm'.
  { unfold m'. destruct (0 - 0 - e) as [|s|s] eqn:Hs.
    - replace (- e) with 0 by lia. lia.
    - rewrite Z.shiftl_mul_pow2 by lia. f_equal. f_equal. lia.
    - lia. }
  pose proof (Z_div_mod m' (Zpos b) ltac:(lia)) as Hdiv.
  change IntDef.Z.div_eucl with Z.div_eucl.
  destruct (Z.div_eucl m' (Z.pos b)) as [q r].
  exists q, e, (new_location (Z.pos b) r). split; [done|].
  assert (0 <= m') by (rewrite Hm'; apply Z.mul_nonneg_nonneg; [lia|apply Z.pow_nonneg; lia]).
  split; [nia|]. split; [done|]. rewrite <- Hm'. nia.
Qed.

Lemma fdiv_int_small (sa sb : bool) (a b : positive) (M : Z) :
  Zpos a < 2 ^ M * Zpos b -> 0 <= M <= 1023 ->
  small (Z.max 0 (M - 52)) (M + 1)
        (fdiv (S754_finite sa a 0) (S754_finite sb b 0)).
Proof.
  intros Hab HM. unfold fdiv. simpl.
  destruct (SFdiv_core_binary_int a b) as (q & e & l & -> & Hq & He & Hqb).
  apply binary_round_aux_small; try lia.
  assert (0 < 2 ^ (- e)) by (apply Z.pow_pos_nonneg; lia).
  assert (0 < 2 ^ M) by (apply Z.pow_pos_nonneg; lia).
  assert (q < 2 ^ (M - e)) as Hlt.
  { replace (M - e) with (M + - e) by lia. rewrite Z.pow_add_r by lia. nia. }
  pose proof (proj2 (Zdigits2_le q (M - e) Hq ltac:(lia)) Hlt). lia.
Qed.

(** The quotient of two integers, the dividend below [2 ^ 1023] in
    magnitude, is a float. *)
Lemma py_truediv_int_ok (m n : Z) :
  n <> 0 -> Z.abs m < 2 ^ 1023 ->
  exists q, py_truediv (PInt m) (PInt n) = Ok (PFloat q) /\ small 971 1024 q.
Proof.
  intros Hn Hm. unfold py_truediv. rewrite (proj2 (Z.eqb_neq n 0) Hn).
  assert (small 971 1024 (fdiv (Z_as_float m) (Z_as_float n))) as Hs.
  { destruct m as [|a|a], n as [|b|b]; try done;
      apply (fdiv_int_small _ _ a b 1023); lia. }
  destruct (fdiv _ _) as [| | |s q e] eqn:E; try done; eauto.
Qed.

(** A quotient between 0 and 1. *)
Lemma py_truediv_unit (m n : Z) :
  0 <= m <= n -> 0 < n ->
  exists q, py_truediv (PInt m) (PInt n) = Ok (PFloat q) /\ small 0 2 q.
Proof.
  intros Hm Hn. unfold py_truediv. rewrite (proj2 (Z.eqb_neq n 0)) by lia.
  assert (small 0 2 (fdiv (Z_as_float m) (Z_as_float n))) as Hs.
  { destruct m as [|a|a], n as [|b|b]; try done; try lia.
    apply (fdiv_int_small _ _ a b 1); lia. }
  destruct (fdiv _ _) as [| | |s q e] eqn:E; try done; eauto.
Qed.





Lemma Zdigits2_shiftr_pos (m k : Z) :
  0 < m -> 0 <= k < Zdigits2 m ->
  0 < Z.shiftr m k /\ Zdigits2 m - k <= Zdigits2 (Z.shiftr m k).
Proof.
  intros Hm Hk. destruct m as [|p|p]; try lia.
  rewrite Zdigits2_log2 in Hk.
  assert (0 < Z.shiftr (Z.pos p) k) as Hpos.
  { rewrite Z.shiftr_div_pow2 by lia.
    apply Z.div_str_pos. split; [apply Z.pow_pos_nonneg; lia|].
    etrans; [|apply (Z.log2_spec (Z.pos p)); lia].
    apply Z.pow_le_mono_r; lia. }
  split; [done|].
  destruct (Z.shiftr (Z.pos p) k) as [|q|q] eqn:E; try lia.
  rewrite !Zdigits2_log2, <- E, Z.log2_shiftr by lia. lia.
Qed.

(** Rounding does not turn a number of magnitude above [2 ^ -1074] into
    zero. *)
Lemma binary_round_aux_nonzero (s : bool) (m e : Z) (l : location) :
  0 < m -> -1074 < Zdigits2 m + e ->
  match binary_round_aux prec emax s m e l with
  | S754_zero _ => False
  | _ => True
  end.
Proof.
  intros Hm Hmag. unfold binary_round_aux, shr_fexp.
  destruct (shr_spec (shr_record_of_loc m l) e
              (fexp prec emax (Zdigits2 m + e) - e)) as [Hm1 He1];
    [rewrite shr_m_of_loc; lia|].
  rewrite shr_m_of_loc in Hm1.
  destruct (shr _ e _) as [mrs1 e1]. simpl in Hm1, He1.
  set (m2 := round_nearest_even (shr_m mrs1) (loc_of_shr_record mrs1)).
  pose proof (round_nearest_even_bound (shr_m mrs1) (loc_of_shr_record mrs1))
    as Hm2. fold m2 in Hm2.
  pose proof (Zdigits2_nonneg m) as Hd.
  assert (0 < Zdigits2 m) as Hd' by (destruct m; simpl; lia).
  destruct (Zdigits2_shiftr_pos m
              (Z.max (fexp prec emax (Zdigits2 m + e) - e) 0) Hm) as [Hp1 Hd1].
  { unfold fexp, emin, prec, emax. lia. }
  rewrite <- Hm1 in Hp1, Hd1.
  assert (Zdigits2 (shr_m mrs1) <= Zdigits2 m2) as Hd2
    by (apply Zdigits2_mono; lia).
  destruct (shr_spec (shr_record_of_loc m2 loc_Exact) e1
              (fexp prec emax (Zdigits2 m2 + e1) - e1)) as [Hm3 He3];
    [simpl; lia|].
  simpl in Hm3.
  destruct (shr _ e1 _) as [mrs3 e3]. simpl in Hm3, He3.
  destruct (Zdigits2_shiftr_pos m2
              (Z.max (fexp prec emax (Zdigits2 m2 + e1) - e1) 0)) as [Hp3 _];
    [lia| |].
  { pose proof (Zdigits2_nonneg m2). unfold fexp, emin, prec, emax in *. lia. }
  rewrite <- Hm3 in Hp3.
  destruct (shr_m mrs3) as [|p|p]; [lia| |done].
  by destruct (e3 <=? emax - prec).
Qed.

(** The float of a non-zero integer below [2 ^ 1023] in magnitude is
    finite and not zero. *)
Lemma py_float_nonzero (n : Z) :
  n <> 0 -> Z.abs n < 2 ^ 1023 ->
  exists s m e, py_float n = Ok (S754_finite s m e).
Proof.
  intros Hn Hlt. destruct (py_float_ok n Hlt) as [Hok Hs]. rewrite Hok.
  assert (match float_of_Z n with S754_zero _ => False | _ => True end) as Hnz.
  { unfold float_of_Z, binary_normalize.
    destruct n as [|p|p]; [done| |]; unfold binary_round;
      (destruct (shl_align_spec p 0 (fexp prec emax (Z.pos (digits2_pos p) + 0)))
         as [Hmag _];
       destruct (shl_align p 0 _) as [mz ez]; simpl in Hmag;
       apply binary_round_aux_nonzero; [lia|simpl; lia]). }
  destruct (float_of_Z n) as [| | |s m e]; try done. eauto.
Qed.

(** ** Geometry partitioner *)

Section Grid.
Context {A B : Type}.

Lemma lookup_flat_map_rows (g : A -> list B) (l : list A) (m : nat) :
  (forall a, length (g a) = m) ->
  forall i j, (j < m)%nat ->
    flat_map g l !! (i * m + j)%nat = l !! i ≫= fun a => g a !! j.
Proof.
  intros Hlen. induction l as [|a l IH]; intros i j Hj; simpl.
  - by rewrite !lookup_nil.
  - destruct i as [|i]; simpl.
    + rewrite lookup_app_l by (rewrite Hlen; lia). done.
    + rewrite lookup_app_r by (rewrite Hlen; lia).
      rewrite Hlen. replace (m + i * m + j - m)%nat with (i * m + j)%nat by lia.
      by apply IH.
Qed.

Lemma length_flat_map_rows (g : A -> list B) (l : list A) (m : nat) :
  (forall a, length (g a) = m) -> length (flat_map g l) = (length l * m)%nat.
Proof.
  intros Hlen. induction l as [|a l IH]; simpl; [done|].
  by rewrite length_app, Hlen, IH.
Qed.

(** A comprehension none of whose elements raises is a [map]. *)
Lemma rmap_ok (f : A -> result B) (g : A -> B) (l : list A) :
  (forall x, x ∈ l -> f x = Ok (g x)) -> rmap f l = Ok (map g l).
Proof.
  induction l as [|x l IH]; intros H; simpl; [done|].
  rewrite (H x) by (by left). simpl.
  rewrite IH by (intros; apply H; by right). done.
Qed.
End Grid.

Lemma length_py_range n : length (py_range n) = Z.to_nat n.
Proof. unfold py_range. by rewrite length_map, length_seq. Qed.

Lemma lookup_py_range n (i : nat) :
  (i < Z.to_nat n)%nat -> py_range n !! i = Some (Z.of_nat i).
Proof.
  intros Hi. unfold py_range. rewrite list_lookup_fmap.
  rewrite lookup_seq_lt by done. done.
Qed.

Lemma elem_of_py_range n i : i ∈ py_range n <-> 0 <= i < n.
Proof.
  unfold py_range. rewrite list_elem_of_fmap. split.
  - intros (k & -> & Hk). apply elem_of_seq in Hk. lia.
  - intros Hi. exists (Z.to_nat i). split; [lia|]. apply elem_of_seq. lia.
Qed.

Lemma rbind_Ok {A B} (a : A) (k : A -> result B) : rbind (Ok a) k = k a.
Proof. reflexivity. Qed.

Lemma py_add_float (a : num) (y : float) :
  py_add a (PFloat y) = let? x := to_float a in Ok (PFloat (fadd x y)).
Proof. by destruct a. Qed.

Lemma py_mul_int_float (i : Z) (y : float) :
  Z.abs i < 2 ^ 1023 ->
  py_mul (PInt i) (PFloat y) = Ok (PFloat (fmul (float_of_Z i) y)).
Proof.
  intros Hi. unfold py_mul, arith. simpl.
  by rewrite (proj1 (py_float_ok i Hi)).
Qed.

Lemma fits_to_float (a : num) :
  fits a -> exists x, to_float a = Ok x /\
    forall n, a = PInt n -> x = float_of_Z n /\ small 971 1024 x.
Proof.
  destruct a as [n|x]; simpl; intros Ha.
  - assert (Z.abs n < 2 ^ 1023) as Hn.
    { eapply Z.lt_trans; [exact Ha|]. by apply Z.pow_lt_mono_r. }
    destruct (py_float_ok n Hn) as [-> Hs]. eexists. split; [done|].
    intros ? [= <-]. done.
  - eexists. split; [done|]. intros ? [=].
Qed.

(** One sub-box, when no conversion overflows. *)
Lemma sub_box_tile (min_x min_y : num) (lo_x lo_y xs ys : float) (i j : Z) :
  to_float min_x = Ok lo_x -> to_float min_y = Ok lo_y ->
  Z.abs i < 2 ^ 1023 -> Z.abs j < 2 ^ 1023 ->
  sub_box min_x min_y (PFloat xs) (PFloat ys) i j
  = Ok (tile lo_x lo_y xs ys i j).
Proof.
  intros Hx Hy Hi Hj. unfold sub_box.
  rewrite (py_mul_int_float i xs Hi), rbind_Ok, py_add_float, Hx, !rbind_Ok.
  rewrite (py_mul_int_float j ys Hj), rbind_Ok, py_add_float, Hy, !rbind_Ok.
  done.
Qed.

(** The nested loops return the tiles [(i, j)] row by row. *)
Lemma grid_tiles (min_x min_y : num) (lo_x lo_y xs ys : float) (n : Z) :
  to_float min_x = Ok lo_x -> to_float min_y = Ok lo_y -> n < 2 ^ 1023 ->
  grid min_x min_y (PFloat xs) (PFloat ys) n
  = Ok (flat_map (fun i => map (fun j => tile lo_x lo_y xs ys i j)
                               (py_range n))
                 (py_range n)).
Proof.
  intros Hx Hy Hn. unfold grid.
  rewrite (rmap_ok _ (fun i => map (fun j => tile lo_x lo_y xs ys i j)
                                   (py_range n))).
  - simpl. by rewrite flat_map_concat_map.
  - intros i Hi. apply elem_of_py_range in Hi.
    apply rmap_ok. intros j Hj. apply elem_of_py_range in Hj.
    apply sub_box_tile; try done; lia.
Qed.

Section Tiles.
Variables (lo_x lo_y xs ys : float) (n : Z).

Let tiles : list BoundingBox :=
  flat_map (fun i => map (fun j => tile lo_x lo_y xs ys i j) (py_range n))
           (py_range n).

Lemma length_tiles : length tiles = (Z.to_nat n * Z.to_nat n)%nat.
Proof.
  unfold tiles.
  rewrite (length_flat_map_rows _ _ (Z.to_nat n)), length_py_range; [done|].
  intros i. by rewrite length_map, length_py_range.
Qed.

Lemma lookup_tiles (i j : nat) :
  (i < Z.to_nat n)%nat -> (j < Z.to_nat n)%nat ->
  tiles !! (i * Z.to_nat n + j)%nat
  = Some (tile lo_x lo_y xs ys (Z.of_nat i) (Z.of_nat j)).
Proof.
  intros Hi Hj. unfold tiles.
  rewrite (lookup_flat_map_rows _ _ (Z.to_nat n));
    [|intros; by rewrite length_map, length_py_range|done].
  rewrite lookup_py_range by done. simpl.
  rewrite list_lookup_fmap, lookup_py_range by done. done.
Qed.

(** Every position of the grid is a cell [(i, j)]. *)
Lemma elem_of_tiles (t : BoundingBox) :
  t ∈ tiles ->
  exists i j, 0 <= i < n /\ 0 <= j < n /\ t = tile lo_x lo_y xs ys i j.
Proof.
  intros Ht. apply list_elem_of_lookup in Ht as [k Hk].
  pose proof (lookup_lt_Some _ _ _ Hk) as Hlt.
  rewrite length_tiles in Hlt.
  assert (Z.to_nat n <> 0)%nat as Hn by (intros E; rewrite E in Hlt; lia).
  assert (k mod Z.to_nat n < Z.to_nat n)%nat as Hj
    by (by apply Nat.mod_upper_bound).
  assert (k / Z.to_nat n < Z.to_nat n)%nat as Hi
    by (apply Nat.Div0.div_lt_upper_bound; lia).
  assert (k = (k / Z.to_nat n * Z.to_nat n + k mod Z.to_nat n)%nat) as Hdiv
    by (rewrite (Nat.div_mod_eq k (Z.to_nat n)) at 1; lia).
  rewrite Hdiv, lookup_tiles in Hk by done.
  exists (Z.of_nat (k / Z.to_nat n)), (Z.of_nat (k mod Z.to_nat n)).
  repeat split; try lia. congruence.
Qed.
End Tiles.

Lemma py_truediv_float_int (x : float) (n : Z) s m e :
  py_float n = Ok (S754_finite s m e) ->
  py_truediv (PFloat x) (PInt n) = Ok (PFloat (fdiv x (S754_finite s m e))).
Proof. intros Hn. unfold py_truediv. simpl. by rewrite Hn. Qed.

(** The step along one axis. *)
Lemma step_ok (lo hi : num) (n : Z) :
  fits lo -> fits hi -> n <> 0 -> Z.abs n < 2 ^ 1023 ->
  exists extent step,
    py_sub hi lo = Ok extent /\
    py_truediv extent (PInt n) = Ok (PFloat step) /\
    forall a b, lo = PInt a -> hi = PInt b ->
      extent = PInt (b - a) /\ step = fdiv (Z_as_float (b - a)) (Z_as_float n).
Proof.
  intros Hlo Hhi Hn Hlt.
  assert (2 ^ 1022 + 2 ^ 1022 = 2 ^ 1023) as Hpow by done.
  destruct (py_float_nonzero n Hn Hlt) as (s & m & e & Hfn).
  destruct (fits_to_float lo Hlo) as (flo & Hflo & _).
  destruct (fits_to_float hi Hhi) as (fhi & Hfhi & _).
  destruct hi as [b|y], lo as [a|x]; simpl in *.
  - destruct (py_truediv_int_ok (b - a) n Hn ltac:(lia)) as (q & Hq & _).
    exists (PInt (b - a)), q. split; [done|]. split; [done|].
    intros ? ? [= <-] [= <-]. split; [done|].
    unfold py_truediv in Hq. rewrite (proj2 (Z.eqb_neq n 0) Hn) in Hq.
    destruct (fdiv _ _); by inversion Hq.
  - unfold py_sub, arith. simpl. rewrite Hfhi. simpl.
    eexists _, _. split; [done|].
    rewrite (py_truediv_float_int _ n s m e Hfn). split; [done|].
    intros ? ? [=].
  - unfold py_sub, arith. simpl. rewrite Hflo. simpl.
    eexists _, _. split; [done|].
    rewrite (py_truediv_float_int _ n s m e Hfn). split; [done|].
    intros ? ? ? [=].
  - unfold py_sub, arith. simpl.
    eexists _, _. split; [done|].
    rewrite (py_truediv_float_int _ n s m e Hfn). split; [done|].
    intros ? ? [=].
Qed.

Lemma step_zero (lo hi : num) :
  fits lo -> fits hi ->
  exists extent,
    py_sub hi lo = Ok extent /\
    py_truediv extent (PInt 0) = Raise ZeroDivisionError.
Proof.
  intros Hlo Hhi.
  destruct (fits_to_float lo Hlo) as (flo & Hflo & _).
  destruct (fits_to_float hi Hhi) as (fhi & Hfhi & _).
  destruct hi as [b|y], lo as [a|x]; simpl in *;
    unfold py_sub, arith; simpl; rewrite ?Hfhi, ?Hflo; simpl; eauto.
Qed.

(** What [split_bounding_box] returns when no conversion overflows. *)
Lemma split_bounding_box_grid (min_x min_y max_x max_y : num) (n : Z) :
  fits min_x -> fits min_y -> fits max_x -> fits max_y ->
  1 <= n < 2 ^ 1023 ->
  exists width height x_step y_step lo_x lo_y tiles,
    py_sub max_x min_x = Ok width /\
    py_truediv width (PInt n) = Ok (PFloat x_step) /\
    py_sub max_y min_y = Ok height /\
    py_truediv height (PInt n) = Ok (PFloat y_step) /\
    to_float min_x = Ok lo_x /\ to_float min_y = Ok lo_y /\
    split_bounding_box (min_x, min_y, max_x, max_y) n = Ok tiles /\
    length tiles = Z.to_nat (n * n) /\
    (forall i j, 0 <= i < n -> 0 <= j < n ->
       tiles !! Z.to_nat (i * n + j)
       = Some (tile lo_x lo_y x_step y_step i j)) /\
    (forall t, t ∈ tiles ->
       exists i j, 0 <= i < n /\ 0 <= j < n /\
         t = tile lo_x lo_y x_step y_step i j) /\
    (forall a b, min_x = PInt a -> max_x = PInt b ->
       lo_x = float_of_Z a /\
       x_step = fdiv (Z_as_float (b - a)) (Z_as_float n)) /\
    (forall a b, min_y = PInt a -> max_y = PInt b ->
       lo_y = float_of_Z a /\
       y_step = fdiv (Z_as_float (b - a)) (Z_as_float n)).
Proof.
  intros Hx Hy HX HY Hn.
  destruct (step_ok min_x max_x n Hx HX ltac:(lia) ltac:(lia))
    as (width & xs & Hw & Hxs & Hxi).
  destruct (step_ok min_y max_y n Hy HY ltac:(lia) ltac:(lia))
    as (height & ys & Hh & Hys & Hyi).
  destruct (fits_to_float min_x Hx) as (lo_x & Hlx & Hlxi).
  destruct (fits_to_float min_y Hy) as (lo_y & Hly & Hlyi).
  exists width, height, xs, ys, lo_x, lo_y. eexists.
  do 6 (split; [done|]).
  split.
  { unfold split_bounding_box. rewrite Hw. simpl. rewrite Hxs. simpl.
    rewrite Hh. simpl. rewrite Hys. simpl.
    apply grid_tiles; [done|done|lia]. }
  split; [rewrite length_tiles; lia|].
  split.
  { intros i j Hi Hj.
    replace (Z.to_nat (i * n + j))
      with (Z.to_nat i * Z.to_nat n + Z.to_nat j)%nat by nia.
    rewrite lookup_tiles by lia. by rewrite !Z2Nat.id by lia. }
  split; [apply elem_of_tiles|].
  split.
  - intros a b Ha Hb. split; [by apply (Hlxi a)|by apply (Hxi a b)].
  - intros a b Ha Hb. split; [by apply (Hlyi a)|by apply (Hyi a b)].
Qed.




(** With a step of [+0.0] the upper corner of a tile is its lower corner. *)
Lemma tile_degenerate_x (a i j : Z) (lo_y ys : float) :
  Z.abs a < 2 ^ 1023 -> Z.abs i < 2 ^ 1023 ->
  bb_max_x (tile (float_of_Z a) lo_y (S754_zero false) ys i j)
  = bb_min_x (tile (float_of_Z a) lo_y (S754_zero false) ys i j).
Proof.
  intros Ha Hi. unfold tile, bb_max_x, bb_min_x. simpl. f_equal.
  destruct (py_float_ok i Hi) as [_ Hsi].
  destruct (Z.eq_dec a 0) as [->|Hne].
  - change (float_of_Z 0) with (S754_zero false).
    by destruct (float_of_Z i) as [[]| | |[] m e].
  - destruct (py_float_nonzero a Hne Ha) as (s & m & e & Hfa).
    destruct (py_float_ok a Ha) as [Hok _]. rewrite Hok in Hfa.
    injection Hfa as ->.
    by destruct (float_of_Z i) as [[]| | |[] m' e'].
Qed.

Lemma tile_degenerate_y (a i j : Z) (lo_x xs : float) :
  Z.abs a < 2 ^ 1023 -> Z.abs j < 2 ^ 1023 ->
  bb_max_y (tile lo_x (float_of_Z a) xs (S754_zero false) i j)
  = bb_min_y (tile lo_x (float_of_Z a) xs (S754_zero false) i j).
Proof.
  intros Ha Hj. unfold tile, bb_max_y, bb_min_y. simpl. f_equal.
  destruct (py_float_ok j Hj) as [_ Hsj].
  destruct (Z.eq_dec a 0) as [->|Hne].
  - change (float_of_Z 0) with (S754_zero false).
    by destruct (float_of_Z j) as [[]| | |[] m e].
  - destruct (py_float_nonzero a Hne Ha) as (s & m & e & Hfa).
    destruct (py_float_ok a Ha) as [Hok _]. rewrite Hok in Hfa.
    injection Hfa as ->.
    by destruct (float_of_Z j) as [[]| | |[] m' e'].
Qed.

Lemma fdiv_zero_pos (n : Z) :
  1 <= n -> fdiv (Z_as_float 0) (Z_as_float n) = S754_zero false.
Proof. intros Hn. by destruct n. Qed.

(** C3, as stated, fails: nothing is validated.  The box [(0, 0, 0, 1)],
    which has no width, is split by a grid size of 2 into four tiles of no
    width, and a grid size of [-3] gives the empty list; neither call
    raises. *)
Lemma split_bounding_box_no_validation_counterexample :
  let zero := PFloat (S754_zero false) in
  let half := PFloat (S754_finite false 4503599627370496 (-53)) in
  let one := PFloat (S754_finite false 4503599627370496 (-52)) in
  split_bounding_box (PInt 0, PInt 0, PInt 0, PInt 1) 2
  = Ok [(zero, zero, zero, half); (zero, half, zero, one);
        (zero, zero, zero, half); (zero, half, zero, one)] /\
  split_bounding_box (PInt 0, PInt 0, PInt 1, PInt 1) (-3) = Ok [].
Proof. split; vm_compute; reflexivity. Qed.

(** C3, amended. [split_bounding_box] validates neither the box nor the
    grid size.  For a box whose corners are floats or integers below
    [2 ^ 1022] in magnitude: a grid size of 0 raises [ZeroDivisionError]; a
    negative grid size returns the empty list; a grid size [n >= 1] returns
    [n * n] tiles whether the box is degenerate or not, and when the two
    ends of the box on an axis are the same integer every tile has equal
    ends on that axis. *)
Theorem split_bounding_box_unvalidated (min_x min_y max_x max_y : num)
    (n : Z) :
  fits min_x -> fits min_y -> fits max_x -> fits max_y ->
  (n = 0 ->
   split_bounding_box (min_x, min_y, max_x, max_y) n
   = Raise ZeroDivisionError) /\
  (- 2 ^ 1023 < n < 0 ->
   split_bounding_box (min_x, min_y, max_x, max_y) n = Ok []) /\
  (1 <= n < 2 ^ 1023 ->
   exists tiles,
     split_bounding_box (min_x, min_y, max_x, max_y) n = Ok tiles /\
     length tiles = Z.to_nat (n * n) /\
     (forall a, min_x = PInt a -> max_x = PInt a ->
        forall t, t ∈ tiles -> bb_max_x t = bb_min_x t) /\
     (forall a, min_y = PInt a -> max_y = PInt a ->
        forall t, t ∈ tiles -> bb_max_y t = bb_min_y t)).
Proof.
  intros Hx Hy HX HY.
  assert (2 ^ 1022 < 2 ^ 1023) as Hpow by done.
  split; [|split].
  - intros ->. unfold split_bounding_box.
    destruct (step_zero min_x max_x Hx HX) as (width & -> & Hdiv).
    simpl. by rewrite Hdiv.
  - intros Hn. unfold split_bounding_box.
    destruct (step_ok min_x max_x n Hx HX ltac:(lia) ltac:(lia))
      as (width & xs & -> & Hxs & _).
    destruct (step_ok min_y max_y n Hy HY ltac:(lia) ltac:(lia))
      as (height & ys & -> & Hys & _).
    simpl. rewrite Hxs. simpl. rewrite Hys. simpl.
    unfold grid, py_range. destruct n; [lia|lia|done].
  - intros Hn.
    destruct (split_bounding_box_grid min_x min_y max_x max_y n Hx Hy HX HY Hn)
      as (width & height & xs & ys & lo_x & lo_y & tiles & Hw & Hxs & Hh & Hys
          & Hlx & Hly & Hsplit & Hlen & Hlook & Helem & Hxi & Hyi).
    exists tiles. split; [done|]. split; [done|]. split.
    + intros a -> -> t Ht.
      destruct (Hxi a a eq_refl eq_refl) as [-> ->].
      destruct (Helem t Ht) as (i & j & Hi & Hj & ->).
      rewrite Z.sub_diag, fdiv_zero_pos by lia.
      simpl in Hx. apply tile_degenerate_x; lia.
    + intros a -> -> t Ht.
      destruct (Hyi a a eq_refl eq_refl) as [-> ->].
      destruct (Helem t Ht) as (i & j & Hi & Hj & ->).
      rewrite Z.sub_diag, fdiv_zero_pos by lia.
      simpl in Hy. apply tile_degenerate_y; lia.
Qed.

Lemma split_bounding_box_unvalidated_witness :
  split_bounding_box (PInt 0, PInt 0, PInt 0, PInt 1) 0
    = Raise ZeroDivisionError /\
  split_bounding_box (PInt 0, PInt 0, PInt 0, PInt 1) (-3) = Ok [] /\
  exists tiles,
    split_bounding_box (PInt 0, PInt 0, PInt 0, PInt 1) 2 = Ok tiles /\
    length tiles = 4%nat /\
    forall t, t ∈ tiles -> bb_max_x t = bb_min_x t.
Proof.
  destruct (split_bounding_box_unvalidated (PInt 0) (PInt 0) (PInt 0) (PInt 1) 0)
    as (H0 & _); [simpl; lia|simpl; lia|simpl; lia|simpl; lia|].
  destruct (split_bounding_box_unvalidated (PInt 0) (PInt 0) (PInt 0) (PInt 1) (-3))
    as (_ & Hneg & _); [simpl; lia|simpl; lia|simpl; lia|simpl; lia|].
  destruct (split_bounding_box_unvalidated (PInt 0) (PInt 0) (PInt 0) (PInt 1) 2)
    as (_ & _ & Hpos); [simpl; lia|simpl; lia|simpl; lia|simpl; lia|].
  split; [by apply H0|]. split; [apply Hneg; lia|].
  destruct Hpos as (tiles & Hsplit & Hlen & Hdx & _); [lia|].
  exists tiles. split; [exact Hsplit|]. split; [exact Hlen|].
  by apply (Hdx 0).
Defined.

(** ** Object detail cache *)


Ltac run :=
  unfold fetch_object_details, load_or_fetch, fetch_nvdb_kartutsnitt,
    try_except, subprocess_run, open_r, open_w_dump, path_exists, print,
    bind, ret, lift; simpl.

(** C2, as stated, fails for a response that is valid JSON but lacks the
    expected fields: the response is written to the cache, [KeyError]
    escapes [fetch_object_details], and the loop over the ids stops before
    the next id is requested.  It also fails for a response that is not
    text in the locale's encoding, which is no valid JSON either:
    [UnicodeDecodeError] escapes and the loop stops. *)
Lemma fetch_object_details_missing_field_counterexample :
  let w := World {[ ["data"; "svv"; "object_ids"] ]} ∅ [] [] in
  let curl : service := fun _ _ => Stdout (Parses (JObject [])) in
  let curl' : service := fun _ _ => Undecodable in
  (fetch_object_details curl (AInt 1) w).1 = Raise KeyError /\
  (fetch_object_details curl (AInt 1) w).1 <> Ok (JNone, JNone) /\
  files (fetch_object_details curl (AInt 1) w).2 !! object_file (AInt 1)
    = Some (Parses (JObject [])) /\
  (collect_roads_data curl [AInt 1; AInt 2] [] w).1 = Raise KeyError /\
  requests (collect_roads_data curl [AInt 1; AInt 2] [] w).2
    = [DetailReq (AInt 1)] /\
  (fetch_object_details curl' (AInt 1) w).1 = Raise UnicodeDecodeError /\
  (collect_roads_data curl' [AInt 1; AInt 2] [] w).1
    = Raise UnicodeDecodeError /\
  requests (collect_roads_data curl' [AInt 1; AInt 2] [] w).2
    = [DetailReq (AInt 1)].
Proof.
  repeat split; try (vm_compute; reflexivity).
  vm_compute. discriminate.
Qed.

(** C2, amended. On a cache miss, a [curl] that exits with a non-zero
    status or a response text that is not valid JSON makes
    [fetch_object_details] return [(None, None)] after exactly one request
    and one printed error line, with the file system unchanged; the loop
    over the ids then goes on with the next id, having added nothing to
    [roads_data].  Output that is not decodable text and a missing [curl]
    executable are not handled: [UnicodeDecodeError], respectively
    [FileNotFoundError], escapes after the one request, nothing is printed
    or written, and the loop over the ids stops there. *)
Theorem fetch_object_details_failure (curl : service) (object_id : atom)
    (w : world) :
  has_file (object_file object_id) w = false ->
  has_dir (object_file object_id) w = false ->
  (curl (requests w) (DetailReq object_id) = ExitNonZero \/
   curl (requests w) (DetailReq object_id) = Stdout Malformed ->
   exists ev,
     (ev = ObjectFetchError object_id \/ ev = ObjectParseError object_id) /\
     fetch_object_details curl object_id w
       = (Ok (JNone, JNone), after_request w (DetailReq object_id) ev) /\
     forall rest roads_data,
       collect_roads_data curl (object_id :: rest) roads_data w
       = collect_roads_data curl rest roads_data
           (after_request w (DetailReq object_id) ev)) /\
  (forall e,
     curl (requests w) (DetailReq object_id) = Undecodable /\
       e = UnicodeDecodeError \/
     curl (requests w) (DetailReq object_id) = NoExecutable /\
       e = FileNotFoundError ->
     let w' := World (dirs w) (files w)
                     (requests w ++ [DetailReq object_id]) (output w) in
     fetch_object_details curl object_id w = (Raise e, w') /\
     forall rest roads_data,
       collect_roads_data curl (object_id :: rest) roads_data w
       = (Raise e, w')).
Proof.
  intros Hfile Hdir. split.
  - intros Hcurl.
    assert (exists ev,
      (ev = ObjectFetchError object_id \/ ev = ObjectParseError object_id) /\
      fetch_object_details curl object_id w
        = (Ok (JNone, JNone), after_request w (DetailReq object_id) ev))
      as (ev & Hev & Hrun).
    { destruct Hcurl as [Hc|Hc]; eexists;
        (split; [|run; rewrite Hfile, Hdir; simpl; rewrite Hc; reflexivity]);
        auto. }
    exists ev. split; [done|]. split; [done|].
    intros rest roads_data. simpl. unfold bind at 1. rewrite Hrun. done.
  - intros e He w'.
    assert (fetch_object_details curl object_id w = (Raise e, w')) as Hrun.
    { destruct He as [[Hc ->]|[Hc ->]];
        run; rewrite Hfile, Hdir; simpl; rewrite Hc; reflexivity. }
    split; [done|].
    intros rest roads_data. simpl. unfold bind at 1. rewrite Hrun. done.
Qed.

Lemma fetch_object_details_failure_witness :
  let w := World ∅ ∅ [] [] in
  let curl : service := fun _ _ => ExitNonZero in
  exists ev,
    fetch_object_details curl (AInt 1) w
      = (Ok (JNone, JNone), after_request w (DetailReq (AInt 1)) ev).
Proof.
  intros w curl.
  destruct (fetch_object_details_failure curl (AInt 1) w)
    as [H _]; [reflexivity | reflexivity |].
  destruct H as (ev & _ & H & _); [left; reflexivity|].
  exists ev. exact H.
Defined.

Lemma has_file_lookup (p : path) (w : world) :
  has_file p w = true <-> exists c, files w !! p = Some c.
Proof.
  unfold has_file. destruct (files w !! p); split; eauto; try done.
  by intros [? ?].
Qed.

Lemma has_file_None (p : path) (w : world) :
  has_file p w = false <-> files w !! p = None.
Proof. unfold has_file. by destruct (files w !! p). Qed.

Lemma has_dir_World (p : path) (w : world) f r o :
  has_dir p (World (dirs w) f r o) = has_dir p w.
Proof. by destruct p. Qed.


(** A cache hit: the detail comes from the file alone; nothing is
    requested and nothing is written. *)
Lemma fetch_object_details_hit (curl : service) (object_id : atom)
    (w : world) (c : payload) :
  files w !! object_file object_id = Some c ->
  exists w',
    fetch_object_details curl object_id w
      = (let? response_json := json_loads c in extract_details response_json,
         w') /\
    dirs w' = dirs w /\ files w' = files w /\ requests w' = requests w.
Proof.
  intros Hc. run. unfold has_file. rewrite Hc. simpl. rewrite Hc.
  destruct c as [j|]; simpl; eauto.
Qed.

(** A cache miss answered with valid JSON: the response is in the cache
    file whatever the extraction of its fields then does. *)
Lemma fetch_object_details_store (curl : service) (object_id : atom)
    (w : world) (j : json) :
  has_file (object_file object_id) w = false ->
  has_dir (object_file object_id) w = false ->
  has_dir (parent (object_file object_id)) w = true ->
  curl (requests w) (DetailReq object_id) = Stdout (Parses j) ->
  fetch_object_details curl object_id w
    = (extract_details j,
       World (dirs w) (<[object_file object_id := Parses j]> (files w))
             (requests w ++ [DetailReq object_id])
             (output w ++ [ObjectSaved object_id (object_file object_id)])).
Proof.
  intros Hfile Hdir Hparent Hcurl. run.
  rewrite Hfile, Hdir. simpl. rewrite Hcurl. simpl.
  rewrite !has_dir_World, Hdir.
  change (has_dir _ w) with (has_dir (parent (object_file object_id)) w).
  rewrite Hparent. simpl. done.
Qed.






(** The cache entry comes before the extraction: C6 holds where the
    directory of the cache files exists. *)
Lemma fetch_object_details_persist_first (curl : service) (object_id : atom)
    (w : world) (j : json) :
  has_file (object_file object_id) w = false ->
  has_dir (object_file object_id) w = false ->
  has_dir (parent (object_file object_id)) w = true ->
  curl (requests w) (DetailReq object_id) = Stdout (Parses j) ->
  (fetch_object_details curl object_id w).1 = extract_details j /\
  files (fetch_object_details curl object_id w).2 !! object_file object_id
    = Some (Parses j).
Proof.
  intros Hfile Hdir Hparent Hcurl.
  rewrite (fetch_object_details_store curl object_id w j) by done.
  simpl. split; [done|]. apply lookup_insert_eq.
Qed.

(** Nothing creates the directory of the cache files: where it is missing,
    a successful fetch ends in [FileNotFoundError] and leaves no entry. *)
Lemma fetch_object_details_no_directory (curl : service) (object_id : atom)
    (w : world) (j : json) :
  has_file (object_file object_id) w = false ->
  has_dir (object_file object_id) w = false ->
  has_dir (parent (object_file object_id)) w = false ->
  curl (requests w) (DetailReq object_id) = Stdout (Parses j) ->
  (fetch_object_details curl object_id w).1 = Raise FileNotFoundError /\
  dirs (fetch_object_details curl object_id w).2 = dirs w /\
  files (fetch_object_details curl object_id w).2 = files w.
Proof.
  intros Hfile Hdir Hparent Hcurl. run.
  rewrite Hfile, Hdir. simpl. rewrite Hcurl. simpl.
  rewrite !has_dir_World, Hdir.
  change (has_dir _ w) with (has_dir (parent (object_file object_id)) w).
  rewrite Hparent. done.
Qed.

(** C6 fails on a fresh working directory.  The script creates [data] and
    [data/svv] but not [data/svv/object_ids]: with a service that lists one
    object and answers its detail request, the run ends in
    [FileNotFoundError] at the first cache write, with no cache entry and
    without the directory. *)
Theorem main_fresh_checkout_fails (slot : list atom -> atom -> nat) :
  let w := World ∅ ∅ [] [] in
  let detail :=
    JObject [("geometri", JObject [("wkt", JStr "LINESTRING (0 0, 1 1)")]);
             ("egenskaper",
              JArray [JObject [("id", JInt 4623); ("verdi", JInt 500)]])] in
  let curl : service :=
    fun _ req =>
      match req with
      | CatalogReq _ =>
          Stdout (Parses (JObject [("objekter",
                                    JArray [JObject [("id", JInt 7)]])]))
      | DetailReq _ => Stdout (Parses detail)
      end in
  (main curl slot w).1 = Raise FileNotFoundError /\
  files (main curl slot w).2 !! object_file (AInt 7) = None /\
  has_dir ["data"; "svv"] (main curl slot w).2 = true /\
  has_dir ["data"; "svv"; "object_ids"] (main curl slot w).2 = false /\
  last (requests (main curl slot w).2) = Some (DetailReq (AInt 7)).
Proof. repeat split; vm_compute; reflexivity. Qed.


(** ** Deduplication of the object ids *)


Lemma set_insert_seen (s : list atom) (a : atom) :
  py_key a ∈ py_key <$> s -> set_insert s a = s.
Proof.
  induction s as [|b s IH]; simpl; intros Hin.
  - by apply elem_of_nil in Hin.
  - unfold key_eqb. case_bool_decide as Hk; [done|].
    apply elem_of_cons in Hin as [Heq|Hin]; [congruence|].
    by rewrite IH.
Qed.

Lemma set_insert_new (s : list atom) (a : atom) :
  py_key a ∉ py_key <$> s -> set_insert s a = s ++ [a].
Proof.
  induction s as [|b s IH]; simpl; intros Hnot; [done|].
  unfold key_eqb. case_bool_decide as Hk.
  - exfalso. apply Hnot. rewrite Hk. by left.
  - rewrite IH; [done|]. intros Hin. apply Hnot. by right.
Qed.

Section Dedup.
Implicit Types (s l : list atom) (a b : atom).

Lemma fold_set_insert_NoDup l s :
  NoDup (py_key <$> s) -> NoDup (py_key <$> fold_left set_insert l s).
Proof.
  revert s. induction l as [|a l IH]; intros s Hs; simpl; [done|].
  apply IH. destruct (decide (py_key a ∈ py_key <$> s)) as [Hin|Hnot].
  - by rewrite set_insert_seen.
  - rewrite set_insert_new by done. rewrite fmap_app. simpl.
    apply NoDup_app. split; [done|]. split.
    + intros k Hk Hk'. apply list_elem_of_singleton in Hk'. by subst.
    + apply NoDup_singleton.
Qed.

Lemma fold_set_insert_keys l s :
  (list_to_set (py_key <$> fold_left set_insert l s) : gset (option (Z + string)))
  = list_to_set (py_key <$> s) ∪ list_to_set (py_key <$> l).
Proof.
  revert s. induction l as [|a l IH]; intros s; simpl.
  - set_solver.
  - rewrite IH. destruct (decide (py_key a ∈ py_key <$> s)) as [Hin|Hnot].
    + rewrite set_insert_seen by done. set_solver.
    + rewrite set_insert_new by done. rewrite fmap_app, list_to_set_app_L.
      simpl. set_solver.
Qed.

Lemma fold_set_insert_elem l s b :
  b ∈ fold_left set_insert l s -> b ∈ s \/ b ∈ l.
Proof.
  revert s. induction l as [|a l IH]; intros s; simpl; [by left|].
  intros Hb. apply IH in Hb as [Hb|Hb]; [|right; by right].
  destruct (decide (py_key a ∈ py_key <$> s)) as [Hin|Hnot].
  - rewrite set_insert_seen in Hb by done. by left.
  - rewrite set_insert_new in Hb by done.
    apply elem_of_app in Hb as [Hb|Hb]; [by left|].
    apply list_elem_of_singleton in Hb as ->. right. by left.
Qed.

Lemma fold_set_insert_length l s :
  (length (fold_left set_insert l s) <= length s + length l)%nat.
Proof.
  revert s. induction l as [|a l IH]; intros s; simpl; [lia|].
  etrans; [apply IH|].
  destruct (decide (py_key a ∈ py_key <$> s)) as [Hin|Hnot].
  - rewrite set_insert_seen by done. lia.
  - rewrite set_insert_new by done. rewrite length_app. simpl. lia.
Qed.

Lemma fold_set_insert_shrinks l s :
  NoDup (py_key <$> s) ->
  ~ NoDup ((py_key <$> s) ++ (py_key <$> l)) ->
  (length (fold_left set_insert l s) < length s + length l)%nat.
Proof.
  revert s. induction l as [|a l IH]; intros s Hs Hdup; simpl.
  - exfalso. apply Hdup. by rewrite app_nil_r.
  - destruct (decide (py_key a ∈ py_key <$> s)) as [Hin|Hnot].
    + rewrite set_insert_seen by done.
      pose proof (fold_set_insert_length l s). lia.
    + rewrite set_insert_new by done.
      assert (length (fold_left set_insert l (s ++ [a]))
              < length (s ++ [a]) + length l)%nat as Hlt.
      { apply IH.
        - rewrite fmap_app. simpl. apply NoDup_app. split; [done|]. split.
          + intros k Hk Hk'. apply list_elem_of_singleton in Hk'. by subst.
          + apply NoDup_singleton.
        - intros Hnd. apply Hdup. rewrite fmap_app in Hnd. simpl in Hnd.
          by rewrite <- app_assoc in Hnd. }
      rewrite length_app in Hlt. simpl in Hlt. lia.
Qed.

Lemma fold_set_insert_id l s :
  NoDup ((py_key <$> s) ++ (py_key <$> l)) ->
  fold_left set_insert l s = s ++ l.
Proof.
  revert s. induction l as [|a l IH]; intros s Hnd; simpl.
  - by rewrite app_nil_r.
  - rewrite set_insert_new.
    + rewrite IH; [by rewrite <- app_assoc|].
      rewrite fmap_app. simpl. by rewrite <- app_assoc.
    + apply NoDup_app in Hnd as (_ & Hdisj & _).
      intros Hin. apply (Hdisj _ Hin). by left.
Qed.
End Dedup.

(** Listing the slots permutes the elements. *)
Lemma slot_insert_Permutation (rank : atom -> nat) (a : atom) (s : list atom) :
  slot_insert rank a s ≡ₚ a :: s.
Proof.
  induction s as [|b s IH]; simpl; [done|].
  destruct (rank a <? rank b)%nat; [done|].
  rewrite IH. apply Permutation_swap.
Qed.

Lemma py_set_Permutation (slot : list atom -> atom -> nat) (l : list atom) :
  py_set slot l ≡ₚ fold_left set_insert l [].
Proof.
  unfold py_set. generalize (slot (fold_left set_insert l [])).
  intros rank. induction (fold_left set_insert l []) as [|a s IH]; [done|].
  simpl. by rewrite slot_insert_Permutation, IH.
Qed.

Section PySet.
Variable slot : list atom -> atom -> nat.

(** [list(set(l))] keeps one element of every class of equal elements. *)
Lemma py_set_NoDup (l : list atom) : NoDup (py_key <$> py_set slot l).
Proof.
  rewrite py_set_Permutation. apply fold_set_insert_NoDup. constructor.
Qed.

Lemma py_set_subset (l : list atom) (b : atom) : b ∈ py_set slot l -> b ∈ l.
Proof.
  rewrite py_set_Permutation.
  intros Hb. apply fold_set_insert_elem in Hb as [Hb|Hb]; [|done].
  by apply elem_of_nil in Hb.
Qed.

Lemma py_set_keys (l : list atom) :
  (list_to_set (py_key <$> py_set slot l) : gset (option (Z + string)))
  = list_to_set (py_key <$> l).
Proof.
  apply set_eq. intros k. rewrite !elem_of_list_to_set.
  rewrite py_set_Permutation.
  rewrite <- !(elem_of_list_to_set (C := gset (option (Z + string)))).
  rewrite fold_set_insert_keys. set_solver.
Qed.

Lemma py_set_covers (l : list atom) (a : atom) :
  a ∈ l -> exists b, b ∈ py_set slot l /\ py_key b = py_key a.
Proof.
  intros Ha.
  assert (py_key a ∈ (list_to_set (py_key <$> py_set slot l)
                        : gset (option (Z + string)))) as Hin.
  { rewrite py_set_keys.
    apply elem_of_list_to_set, list_elem_of_fmap. eauto. }
  apply elem_of_list_to_set, list_elem_of_fmap in Hin as (b & Hk & Hb). eauto.
Qed.

Lemma count_key_NoDup (s : list atom) (k : option (Z + string)) :
  NoDup (py_key <$> s) ->
  length (filter (fun b => py_key b = k) s)
  = if decide (k ∈ py_key <$> s) then 1%nat else 0%nat.
Proof.
  induction s as [|c s IH]; intros Hnd.
  - destruct (decide (k ∈ py_key <$> [])) as [Hin|]; [|done].
    by apply elem_of_nil in Hin.
  - rewrite fmap_cons in Hnd |- *.
    apply NoDup_cons in Hnd as [Hc Hs]. rewrite filter_cons.
    specialize (IH Hs). destruct (decide (py_key c = k)) as [<-|Hne].
    + simpl. rewrite IH. rewrite decide_False by done.
      rewrite decide_True by (by left). done.
    + rewrite IH. destruct (decide (k ∈ py_key <$> s)) as [Hin|Hnot].
      * rewrite decide_True by (by right). done.
      * rewrite decide_False; [done|].
        intros Hin. apply elem_of_cons in Hin as [Heq|Hin]; congruence.
Qed.

Lemma py_set_once (l : list atom) (a : atom) :
  a ∈ l ->
  length (filter (fun b => py_key b = py_key a) (py_set slot l)) = 1%nat.
Proof.
  intros Ha. rewrite count_key_NoDup by apply py_set_NoDup.
  rewrite decide_True; [done|].
  destruct (py_set_covers l a Ha) as (b & Hb & <-).
  apply list_elem_of_fmap. eauto.
Qed.

Lemma py_set_length (l : list atom) :
  length (py_set slot l)
  = size (list_to_set (py_key <$> l) : gset (option (Z + string))).
Proof.
  rewrite <- (length_fmap py_key (py_set slot l)).
  rewrite <- (size_list_to_set (C := gset (option (Z + string))))
    by apply py_set_NoDup.
  by rewrite py_set_keys.
Qed.

Lemma py_set_length_le (l : list atom) :
  (length (py_set slot l) <= length l)%nat.
Proof. rewrite py_set_Permutation. apply (fold_set_insert_length l []). Qed.

Lemma py_set_length_lt (l : list atom) :
  ~ NoDup (py_key <$> l) -> (length (py_set slot l) < length l)%nat.
Proof.
  intros Hdup. rewrite py_set_Permutation.
  apply (fold_set_insert_shrinks l []); [constructor|done].
Qed.

(** A list without equal elements comes back as it is, up to the order. *)
Lemma py_set_id (l : list atom) :
  NoDup (py_key <$> l) -> py_set slot l ≡ₚ l.
Proof.
  intros Hnd. rewrite py_set_Permutation.
  by rewrite (fold_set_insert_id l []).
Qed.
End PySet.

(** ** Catalog fetcher and aggregation *)

Lemma rmap_hashable_atoms (ids : list atom) :
  rmap py_hashable (JAtom <$> ids) = Ok ids.
Proof.
  induction ids as [|a ids IH]; [done|].
  change (rmap py_hashable (JAtom <$> a :: ids))
    with (let? ys := rmap py_hashable (JAtom <$> ids) in Ok (a :: ys)).
  by rewrite IH.
Qed.

(** A turn of the loop issues exactly one request and leaves the file
    system alone, whatever its outcome. *)
Lemma fetch_tile_world (curl : service) (bbox : BoundingBox) (w : world) :
  dirs (fetch_tile curl bbox w).2 = dirs w /\
  files (fetch_tile curl bbox w).2 = files w /\
  requests (fetch_tile curl bbox w).2 = requests w ++ [CatalogReq bbox].
Proof.
  unfold fetch_tile. run.
  destruct (curl (requests w) (CatalogReq bbox)) as [| | |[j|]]; simpl;
    try done.
  destruct (py_get j "objekter" (JArray [])) as [objekter|[]]; simpl; try done.
  destruct (py_iter objekter) as [items|[]]; simpl; try done.
  by destruct (rmap _ items) as [|[]].
Qed.

(** A tile whose request fails or whose response is not JSON contributes
    the empty list, after one request and one printed error line. *)
Lemma fetch_nvdb_kartutsnitt_failure (curl : service) (bbox : BoundingBox)
    (w : world) :
  curl (requests w) (CatalogReq bbox) = ExitNonZero \/
  curl (requests w) (CatalogReq bbox) = Stdout Malformed ->
  exists ev,
    (ev = KartutsnittFetchError \/ ev = KartutsnittParseError) /\
    fetch_nvdb_kartutsnitt curl bbox w
      = (Ok [], after_request w (CatalogReq bbox) ev).
Proof.
  intros [Hc|Hc]; eexists; (split; [|run; rewrite Hc; reflexivity]); auto.
Qed.

Lemma fetch_tile_failure (curl : service) (bbox : BoundingBox) (w : world) :
  curl (requests w) (CatalogReq bbox) = ExitNonZero \/
  curl (requests w) (CatalogReq bbox) = Stdout Malformed ->
  (fetch_tile curl bbox w).1 = Ok [].
Proof.
  intros Hc. unfold fetch_tile, bind, print.
  edestruct (fetch_nvdb_kartutsnitt_failure curl bbox) as (ev & _ & ->);
    [exact Hc|done].
Qed.

Lemma fetch_sub_boxes_cons (curl : service) bbox rest acc (w : world) :
  fetch_sub_boxes curl (bbox :: rest) acc w
  = match fetch_tile curl bbox w with
    | (Ok object_ids, w1) => fetch_sub_boxes curl rest (acc ++ object_ids) w1
    | (Raise e, w1) => (Raise e, w1)
    end.
Proof. reflexivity. Qed.

Lemma fetch_sub_boxes_run (curl : service) w tiles per_tile w' :
  tile_run curl w tiles per_tile w' ->
  forall acc,
    fetch_sub_boxes curl tiles acc w = (Ok (acc ++ concat per_tile), w').
Proof.
  induction 1 as [w|w bbox rest ids w1 per_tile w2 Hturn _ IH]; intros acc.
  - simpl. by rewrite app_nil_r.
  - rewrite fetch_sub_boxes_cons, Hturn, IH. simpl. by rewrite app_assoc.
Qed.

Lemma tile_run_app (curl : service) w tiles1 per1 w1 tiles2 per2 w2 :
  tile_run curl w tiles1 per1 w1 ->
  tile_run curl w1 tiles2 per2 w2 ->
  tile_run curl w (tiles1 ++ tiles2) (per1 ++ per2) w2.
Proof.
  induction 1; intros Hrest; simpl; [done|].
  econstructor; eauto.
Qed.

(** One request per tile, in order, and no file touched. *)
Lemma tile_run_world (curl : service) w tiles per_tile w' :
  tile_run curl w tiles per_tile w' ->
  dirs w' = dirs w /\ files w' = files w /\
  requests w' = requests w ++ (CatalogReq <$> tiles) /\
  length per_tile = length tiles.
Proof.
  induction 1 as [w|w bbox rest ids w1 per_tile w2 Hturn _ IH].
  - simpl. by rewrite app_nil_r.
  - destruct IH as (Hd & Hf & Hr & Hl).
    destruct (fetch_tile_world curl bbox w) as (Hd1 & Hf1 & Hr1).
    rewrite Hturn in Hd1, Hf1, Hr1. simpl in *.
    rewrite Hd, Hf, Hr, Hd1, Hf1, Hr1, <- app_assoc, Hl. done.
Qed.

(** Step 1 on a run without the aggregate file. *)
Lemma aggregate_object_ids_fresh (curl : service)
    (slot : list atom -> atom -> nat) tiles (w w1 : world)
    (ids : list atom) :
  has_file object_ids_file w = false ->
  has_dir object_ids_file w = false ->
  has_dir (parent object_ids_file) w = true ->
  fetch_sub_boxes curl tiles [] w = (Ok (JAtom <$> ids), w1) ->
  dirs w1 = dirs w ->
  aggregate_object_ids curl slot tiles w
  = (Ok (py_set slot ids),
     World (dirs w1)
           (<[object_ids_file := Parses (JArray (JAtom <$> py_set slot ids))]>
              (files w1))
           (requests w1) (output w1 ++ [SavedObjectIds object_ids_file])).
Proof.
  intros Hfile Hdir Hparent Hrun Hdirs.
  unfold aggregate_object_ids, bind, path_exists, ret, lift.
  rewrite Hfile, Hdir. simpl. rewrite Hrun.
  cbn [py_iter]. rewrite rmap_hashable_atoms. unfold open_w_dump.
  destruct w1 as [d1 f1 r1 o1]. simpl in Hdirs. subst d1.
  rewrite !has_dir_World, Hdir.
  rewrite Hparent. done.
Qed.

(** C5, as stated, fails for a payload that is not text in the locale's
    encoding, which is not JSON either: [UnicodeDecodeError] is caught by
    neither clause, the catalog phase stops at that tile, the tiles after
    it are not requested and no aggregate file is written, so the ids of
    the other tiles are lost.  The same holds when there is no [curl]
    executable. *)
Lemma failed_tile_undecodable_counterexample :
  let w := World {[ ["data"; "svv"] ]} ∅ [] [] in
  let listing (n : Z) :=
    Stdout (Parses (JObject [("objekter",
                              JArray [JObject [("id", JInt n)];
                                      JObject [("id", JInt (n + 1))]])])) in
  let curl : service :=
    fun before _ =>
      match before with
      | [_] => Undecodable
      | _ => listing (Z.of_nat (length before))
      end in
  let slot : list atom -> atom -> nat := fun _ _ => 0%nat in
  let t (a b c d : Z) : BoundingBox := (PInt a, PInt b, PInt c, PInt d) in
  let tiles := [t 0 0 5 5; t 0 5 5 10; t 5 0 10 5; t 5 5 10 10] in
  let run := aggregate_object_ids curl slot tiles w in
  (fetch_nvdb_kartutsnitt curl (t 0 5 5 10) (fetch_tile curl (t 0 0 5 5) w).2).1
    = Raise UnicodeDecodeError /\
  run.1 = Raise UnicodeDecodeError /\
  files run.2 !! object_ids_file = None /\
  requests run.2 = [CatalogReq (t 0 0 5 5); CatalogReq (t 0 5 5 10)] /\
  (aggregate_object_ids (fun _ _ => NoExecutable) slot tiles w).1
    = Raise FileNotFoundError.
Proof. repeat split; vm_compute; reflexivity. Qed.

(** C5, amended. In a run of the catalog phase in which the [curl] for one
    tile exits with a non-zero status or writes a text that is not valid
    JSON, that tile contributes the empty list, the loop goes on, every
    tile is requested exactly once and in order (no retry), and the
    aggregated, persisted ids cover every id contributed by the other
    tiles. *)
Theorem failed_tile_keeps_other_tiles (curl : service)
    (slot : list atom -> atom -> nat)
    (before after : list BoundingBox) (bbox : BoundingBox)
    (w w1 w2 : world) (per1 per2 : list (list json)) (ids : list atom) :
  has_file object_ids_file w = false ->
  has_dir object_ids_file w = false ->
  has_dir (parent object_ids_file) w = true ->
  tile_run curl w before per1 w1 ->
  curl (requests w1) (CatalogReq bbox) = ExitNonZero \/
  curl (requests w1) (CatalogReq bbox) = Stdout Malformed ->
  tile_run curl (fetch_tile curl bbox w1).2 after per2 w2 ->
  concat per1 ++ concat per2 = JAtom <$> ids ->
  (forall w', requests w' = requests w1 ->
     (fetch_nvdb_kartutsnitt curl bbox w').1 = Ok []) /\
  requests w2 = requests w ++ (CatalogReq <$> (before ++ bbox :: after)) /\
  exists all_object_ids w3,
    aggregate_object_ids curl slot (before ++ bbox :: after) w
      = (Ok all_object_ids, w3) /\
    requests w3 = requests w2 /\
    files w3 !! object_ids_file
      = Some (Parses (JArray (JAtom <$> all_object_ids))) /\
    (forall a, a ∈ ids ->
       exists b, b ∈ all_object_ids /\ py_key b = py_key a) /\
    (forall b, b ∈ all_object_ids -> b ∈ ids).
Proof.
  intros Hfile Hdir Hparent Hrun1 Hfail Hrun2 Hids.
  assert (tile_run curl w (before ++ bbox :: after) (per1 ++ [] :: per2) w2)
    as Hrun.
  { eapply tile_run_app; [exact Hrun1|].
    econstructor; [|exact Hrun2].
    rewrite <- (fetch_tile_failure curl bbox w1 Hfail).
    apply surjective_pairing. }
  destruct (tile_run_world _ _ _ _ _ Hrun) as (Hd & Hf & Hr & _).
  split; [|split].
  - intros w' Hw'.
    destruct (fetch_nvdb_kartutsnitt_failure curl bbox w') as (ev & _ & ->);
      [by rewrite Hw'|done].
  - done.
  - exists (py_set slot ids). eexists. split; [|split; [|split; [|split]]].
    + apply aggregate_object_ids_fresh; try done.
      rewrite (fetch_sub_boxes_run _ _ _ _ _ Hrun). simpl.
      rewrite concat_app. simpl. by rewrite Hids.
    + done.
    + simpl. apply lookup_insert_eq.
    + apply py_set_covers.
    + apply py_set_subset.
Qed.

Lemma failed_tile_keeps_other_tiles_witness :
  let w := World {[ ["data"; "svv"] ]} ∅ [] [] in
  let listing (n : Z) :=
    Stdout (Parses (JObject [("objekter",
                              JArray [JObject [("id", JInt n)];
                                      JObject [("id", JInt (n + 1))]])])) in
  let curl : service :=
    fun before _ =>
      match before with
      | [_] => ExitNonZero
      | _ => listing (Z.of_nat (length before))
      end in
  let slot : list atom -> atom -> nat :=
    fun _ a => match a with AInt n => Z.to_nat n | _ => 0%nat end in
  let t (a b c d : Z) : BoundingBox := (PInt a, PInt b, PInt c, PInt d) in
  let tiles := [t 0 0 5 5; t 0 5 5 10; t 5 0 10 5; t 5 5 10 10] in
  (aggregate_object_ids curl slot tiles w).1
  = Ok [AInt 0; AInt 1; AInt 2; AInt 3; AInt 4].
Proof.
  intros w listing curl slot t tiles.
  pose (t0 := fetch_tile curl (t 0 0 5 5) w).
  pose (t1 := fetch_tile curl (t 0 5 5 10) t0.2).
  pose (t2 := fetch_tile curl (t 5 0 10 5) t1.2).
  pose (t3 := fetch_tile curl (t 5 5 10 10) t2.2).
  destruct (failed_tile_keeps_other_tiles curl slot
              [t 0 0 5 5] [t 5 0 10 5; t 5 5 10 10]
              (t 0 5 5 10) w t0.2 t3.2
              [[JInt 0; JInt 1]] [[JInt 2; JInt 3]; [JInt 3; JInt 4]]
              [AInt 0; AInt 1; AInt 2; AInt 3; AInt 3; AInt 4])
    as (_ & _ & all & w3 & Hagg & _).
  - vm_compute. reflexivity.
  - vm_compute. reflexivity.
  - vm_compute. reflexivity.
  - econstructor; [|constructor]. vm_compute. reflexivity.
  - left. vm_compute. reflexivity.
  - econstructor; [vm_compute; reflexivity|].
    econstructor; [vm_compute; reflexivity|].
    constructor.
  - reflexivity.
  - pose proof (f_equal fst Hagg) as H.
    vm_compute in H. injection H as <-.
    vm_compute. reflexivity.
Defined.

Lemma length_concat_sum {A} (ls : list (list A)) :
  length (concat ls) = sum_list (length <$> ls).
Proof.
  induction ls as [|l ls IH]; [done|].
  rewrite fmap_cons. simpl. by rewrite length_app, IH.
Qed.

(** C7. In a run of the catalog phase, whatever id lists the tiles
    contribute, the collection that is returned and written to the
    aggregate file holds exactly one element of every class of equal ids:
    its size is the number of distinct ids, which is at most the sum of the
    per-tile counts and strictly less as soon as an id is repeated. *)
Theorem aggregate_object_ids_distinct (curl : service)
    (slot : list atom -> atom -> nat)
    (tiles : list BoundingBox) (w w1 : world)
    (per_tile : list (list json)) (ids : list atom) :
  has_file object_ids_file w = false ->
  has_dir object_ids_file w = false ->
  has_dir (parent object_ids_file) w = true ->
  tile_run curl w tiles per_tile w1 ->
  concat per_tile = JAtom <$> ids ->
  exists all_object_ids w2,
    aggregate_object_ids curl slot tiles w = (Ok all_object_ids, w2) /\
    files w2 !! object_ids_file
      = Some (Parses (JArray (JAtom <$> all_object_ids))) /\
    (forall a, a ∈ ids ->
       length (filter (fun b => py_key b = py_key a) all_object_ids) = 1%nat) /\
    (forall b, b ∈ all_object_ids -> b ∈ ids) /\
    length all_object_ids
      = size (list_to_set (py_key <$> ids) : gset (option (Z + string))) /\
    (length all_object_ids <= sum_list (length <$> per_tile))%nat /\
    (~ NoDup (py_key <$> ids) ->
     (length all_object_ids < sum_list (length <$> per_tile))%nat).
Proof.
  intros Hfile Hdir Hparent Hrun Hids.
  destruct (tile_run_world _ _ _ _ _ Hrun) as (Hd & _).
  assert (sum_list (length <$> per_tile) = length ids) as ->.
  { by rewrite <- length_concat_sum, Hids, length_fmap. }
  exists (py_set slot ids). eexists.
  split; [|split; [|split; [|split; [|split; [|split]]]]].
  - apply aggregate_object_ids_fresh; try done.
    rewrite (fetch_sub_boxes_run _ _ _ _ _ Hrun). simpl. by rewrite Hids.
  - simpl. apply lookup_insert_eq.
  - apply py_set_once.
  - apply py_set_subset.
  - apply py_set_length.
  - apply py_set_length_le.
  - apply py_set_length_lt.
Qed.

Lemma aggregate_object_ids_distinct_witness :
  let w := World {[ ["data"; "svv"] ]} ∅ [] [] in
  let curl : service :=
    fun before _ =>
      Stdout (Parses (JObject [("objekter",
        JArray [JObject [("id", JInt (Z.of_nat (length before)))];
                JObject [("id", JInt (Z.of_nat (length before) + 1))]])])) in
  let slot : list atom -> atom -> nat :=
    fun _ a => match a with AInt n => Z.to_nat n | _ => 0%nat end in
  let t (a b c d : Z) : BoundingBox := (PInt a, PInt b, PInt c, PInt d) in
  let tiles := [t 0 0 5 5; t 5 5 10 10] in
  exists all_object_ids w2,
    aggregate_object_ids curl slot tiles w = (Ok all_object_ids, w2) /\
    length all_object_ids = 3%nat.
Proof.
  intros w curl slot t tiles.
  pose (t0 := fetch_tile curl (t 0 0 5 5) w).
  pose (t1 := fetch_tile curl (t 5 5 10 10) t0.2).
  destruct (aggregate_object_ids_distinct curl slot tiles w t1.2
              [[JInt 0; JInt 1]; [JInt 1; JInt 2]]
              [AInt 0; AInt 1; AInt 1; AInt 2])
    as (all & w2 & Hagg & _ & _ & _ & Hlen & _).
  - vm_compute. reflexivity.
  - vm_compute. reflexivity.
  - vm_compute. reflexivity.
  - econstructor; [vm_compute; reflexivity|].
    econstructor; [vm_compute; reflexivity|]. constructor.
  - reflexivity.
  - exists all, w2. split; [exact Hagg|]. rewrite Hlen. vm_compute. reflexivity.
Defined.

(** C8. When the aggregate file exists at the start of the run, no tile is
    requested; the ids used from then on are those of the file, one of
    every class of equal ids, in the order in which the set lists them; the
    file is written back with these ids and nothing else changes.  For a
    file that holds a duplicate-free array they are the ids of the file, up
    to their order. *)
Theorem aggregate_object_ids_cached (curl : service)
    (slot : list atom -> atom -> nat)
    (tiles : list BoundingBox) (w : world) (loaded : json)
    (items : list json) (ids : list atom) :
  files w !! object_ids_file = Some (Parses loaded) ->
  has_dir object_ids_file w = false ->
  has_dir (parent object_ids_file) w = true ->
  py_iter loaded = Ok items ->
  rmap py_hashable items = Ok ids ->
  exists all_object_ids w',
    aggregate_object_ids curl slot tiles w = (Ok all_object_ids, w') /\
    requests w' = requests w /\
    dirs w' = dirs w /\
    (forall a, a ∈ ids ->
       exists b, b ∈ all_object_ids /\ py_key b = py_key a) /\
    (forall b, b ∈ all_object_ids -> b ∈ ids) /\
    NoDup (py_key <$> all_object_ids) /\
    files w'
      = <[object_ids_file := Parses (JArray (JAtom <$> all_object_ids))]>
          (files w) /\
    (NoDup (py_key <$> ids) -> all_object_ids ≡ₚ ids).
Proof.
  intros Hc Hdir Hparent Hiter Hhash.
  assert (has_file object_ids_file w = true) as Hfile
    by (apply has_file_lookup; eauto).
  exists (py_set slot ids). eexists.
  split; [|split; [|split; [|split; [|split; [|split; [|split]]]]]].
  - unfold aggregate_object_ids, bind, path_exists, ret, lift, open_r, print.
    rewrite Hfile. simpl. rewrite Hc. simpl. rewrite Hiter, Hhash.
    unfold open_w_dump. rewrite !has_dir_World, Hdir, Hparent. reflexivity.
  - done.
  - done.
  - apply py_set_covers.
  - apply py_set_subset.
  - apply py_set_NoDup.
  - done.
  - apply py_set_id.
Qed.

Lemma aggregate_object_ids_cached_witness :
  let w := World {[ ["data"; "svv"] ]}
             {[ object_ids_file := Parses (JArray [JInt 3; JInt 5; JInt 3]) ]}
             [] [] in
  let curl : service := fun _ _ => ExitNonZero in
  let slot : list atom -> atom -> nat :=
    fun _ a => match a with AInt n => Z.to_nat n | _ => 0%nat end in
  exists all_object_ids w',
    aggregate_object_ids curl slot [(PInt 0, PInt 0, PInt 5, PInt 5)] w
      = (Ok all_object_ids, w') /\
    requests w' = [] /\
    forall a, a ∈ [AInt 3; AInt 5; AInt 3] ->
      exists b, b ∈ all_object_ids /\ py_key b = py_key a.
Proof.
  intros w curl slot.
  destruct (aggregate_object_ids_cached curl slot
              [(PInt 0, PInt 0, PInt 5, PInt 5)] w
              (JArray [JInt 3; JInt 5; JInt 3]) [JInt 3; JInt 5; JInt 3]
              [AInt 3; AInt 5; AInt 3])
    as (all & w' & Hagg & Hreq & _ & Hcov & _).
  - vm_compute. reflexivity.
  - vm_compute. reflexivity.
  - vm_compute. reflexivity.
  - reflexivity.
  - reflexivity.
  - exists all, w'. split; [exact Hagg|]. split; [exact Hreq|exact Hcov].
Defined.


(** ** Colour scale *)

Section Colour.

Lemma generate_color_int (v lo hi : Z) :
  generate_color (PInt v) (PInt lo) (PInt hi)
  = let? norm_value := py_truediv (PInt (v - lo)) (PInt (hi - lo)) in
    let? red := py_mul norm_value (PInt 255) in
    let? r := py_int red in
    let? rest := py_sub (PInt 1) norm_value in
    let? green := py_mul rest (PInt 255) in
    let? g := py_int green in
    Ok ("rgb(" +:+ pretty r +:+ "," +:+ pretty g +:+ "," +:+ pretty 0 +:+ ")").
Proof. reflexivity. Qed.

(** The two components, once the normalised value is known. *)
Lemma generate_color_norm (v lo hi : Z) (q : float) :
  py_truediv (PInt (v - lo)) (PInt (hi - lo)) = Ok (PFloat q) ->
  generate_color (PInt v) (PInt lo) (PInt hi)
  = let? r := py_int (PFloat (fmul q (float_of_Z 255))) in
    let? g := py_int (PFloat (fmul (fsub (float_of_Z 1) q) (float_of_Z 255))) in
    Ok ("rgb(" +:+ pretty r +:+ "," +:+ pretty g +:+ ",0)").
Proof. intros H. rewrite generate_color_int, H. reflexivity. Qed.





Lemma small_255 : small (-45) 8 (float_of_Z 255).
Proof. vm_compute. split; discriminate. Qed.

Lemma small_1 : small (-52) 1 (float_of_Z 1).
Proof. vm_compute. split; discriminate. Qed.

(** Every value of the scale gets a colour. *)
Lemma generate_color_in_range (v lo hi : Z) :
  lo < hi -> lo <= v <= hi ->
  exists c, generate_color (PInt v) (PInt lo) (PInt hi) = Ok c.
Proof.
  intros Hlt Hv.
  destruct (py_truediv_unit (v - lo) (hi - lo) ltac:(lia) ltac:(lia))
    as (q & Hq & Hs).
  rewrite (generate_color_norm v lo hi q Hq).
  pose proof (fmul_small 0 2 (-45) 8 (-42) q (float_of_Z 255) Hs small_255
                ltac:(lia) ltac:(lia) ltac:(lia) ltac:(lia)) as Hred.
  destruct (small_py_int _ _ _ Hred) as [r ->].
  destruct (faddsub_small (-52) 1 0 2 0 2 (float_of_Z 1) q small_1 Hs
              ltac:(lia) ltac:(lia) ltac:(lia) ltac:(lia) ltac:(lia)
              ltac:(lia) ltac:(lia)) as [_ Hrest].
  pose proof (fmul_small 0 4 (-45) 8 (-40) _ (float_of_Z 255) Hrest small_255
                ltac:(lia) ltac:(lia) ltac:(lia) ltac:(lia)) as Hgreen.
  destruct (small_py_int _ _ _ Hgreen) as [g ->].
  by eexists.
Qed.




End Colour.

Section Extremes.

Lemma py_min_spec (l : list Z) (x : Z) :
  py_min x l ∈ x :: l /\ forall y, y ∈ x :: l -> py_min x l <= y.
Proof.
  revert x. induction l as [|a l IH]; intros x; unfold py_min; simpl.
  - split; [by left|]. intros y Hy. apply list_elem_of_singleton in Hy as ->. lia.
  - destruct (IH (if x <=? a then x else a)) as [Hin Hle].
    unfold py_min in Hin, Hle. split.
    + apply elem_of_cons in Hin as [->|Hin].
      * destruct (x <=? a); [by left|right; by left].
      * right. by right.
    + intros y Hy.
      assert ((if x <=? a then x else a) <= x /\
              (if x <=? a then x else a) <= a) as [Hx Ha]
        by (destruct (Z.leb_spec x a); lia).
      pose proof (Hle _ ltac:(by left)) as H0.
      apply elem_of_cons in Hy as [->|Hy]; [lia|].
      apply elem_of_cons in Hy as [->|Hy]; [lia|].
      apply Hle. by right.
Qed.

Lemma py_max_spec (l : list Z) (x : Z) :
  py_max x l ∈ x :: l /\ forall y, y ∈ x :: l -> y <= py_max x l.
Proof.
  revert x. induction l as [|a l IH]; intros x; unfold py_max; simpl.
  - split; [by left|]. intros y Hy. apply list_elem_of_singleton in Hy as ->. lia.
  - destruct (IH (if a <=? x then x else a)) as [Hin Hle].
    unfold py_max in Hin, Hle. split.
    + apply elem_of_cons in Hin as [->|Hin].
      * destruct (a <=? x); [by left|right; by left].
      * right. by right.
    + intros y Hy.
      assert (x <= (if a <=? x then x else a) /\
              a <= (if a <=? x then x else a)) as [Hx Ha]
        by (destruct (Z.leb_spec a x); lia).
      pose proof (Hle _ ltac:(by left)) as H0.
      apply elem_of_cons in Hy as [->|Hy]; [lia|].
      apply elem_of_cons in Hy as [->|Hy]; [lia|].
      apply Hle. by right.
Qed.

(** The ends of the scale are the least and the greatest of the values
    that are not [None]. *)
Lemma min_ådt_spec (roads_data : roads) :
  ådt_values roads_data <> [] ->
  min_ådt roads_data ∈ ådt_values roads_data /\
  forall v, v ∈ ådt_values roads_data -> min_ådt roads_data <= v.
Proof.
  unfold min_ådt. destruct (ådt_values roads_data) as [|x l]; [done|].
  intros _. apply py_min_spec.
Qed.

Lemma max_ådt_spec (roads_data : roads) :
  ådt_values roads_data <> [] ->
  max_ådt roads_data ∈ ådt_values roads_data /\
  forall v, v ∈ ådt_values roads_data -> v <= max_ådt roads_data.
Proof.
  unfold max_ådt. destruct (ådt_values roads_data) as [|x l]; [done|].
  intros _. apply py_max_spec.
Qed.

Lemma elem_of_ådt_values (roads_data : roads) (v : Z) :
  v ∈ ådt_values roads_data <-> exists g, (g, Some v) ∈ roads_data.
Proof.
  unfold ådt_values. rewrite list_elem_of_omap. split.
  - intros ([g o] & Hin & Ho). simpl in Ho. subst o. eauto.
  - intros [g Hin]. exists (g, Some v). done.
Qed.


(** Every value of [roads_data] lies on the scale. *)
Lemma scale_covers (roads_data : roads) (g : option string) (v : Z) :
  (g, Some v) ∈ roads_data ->
  min_ådt roads_data <= v <= max_ådt roads_data.
Proof.
  intros Hin.
  assert (v ∈ ådt_values roads_data) as Hv
    by (apply elem_of_ådt_values; eauto).
  assert (ådt_values roads_data <> []) as Hnil
    by (intros E; rewrite E in Hv; by apply elem_of_nil in Hv).
  destruct (min_ådt_spec roads_data Hnil) as [_ Hmin].
  destruct (max_ådt_spec roads_data Hnil) as [_ Hmax].
  split; [by apply Hmin|by apply Hmax].
Qed.
End Extremes.

Section MapColours.
Variable loads : string -> result shape.
Variable transform : float -> float -> float * float.




End MapColours.





(** * Further properties of the code *)

(** ** Partitioner and catalog fetcher *)

(** Whatever it returns or raises, [fetch_nvdb_kartutsnitt] issues its one
    request and leaves directories and files as they were. *)
Lemma fetch_nvdb_kartutsnitt_world (curl : service) (bbox : BoundingBox)
    (w : world) :
  dirs (fetch_nvdb_kartutsnitt curl bbox w).2 = dirs w /\
  files (fetch_nvdb_kartutsnitt curl bbox w).2 = files w /\
  requests (fetch_nvdb_kartutsnitt curl bbox w).2
    = requests w ++ [CatalogReq bbox].
Proof.
  run.
  destruct (curl (requests w) (CatalogReq bbox)) as [| | |[j|]]; simpl;
    try done.
  destruct (py_get j "objekter" (JArray [])) as [objekter|[]]; simpl; try done.
  destruct (py_iter objekter) as [items|[]]; simpl; try done.
  by destruct (rmap _ items) as [|[]].
Qed.

Lemma rmap_ids (objs ids : list json) :
  Forall2 (fun obj id =>
             exists kvs, obj = JObject kvs /\ assoc "id" kvs = Some id)
          objs ids ->
  rmap (fun obj => py_getitem obj "id") objs = Ok ids.
Proof.
  induction 1 as [|obj id objs ids (kvs & -> & Hid) _ IH]; simpl; [done|].
  by rewrite Hid, IH.
Qed.

Lemma rmap_missing_id (objs : list json) :
  Forall (fun obj => exists kvs, obj = JObject kvs) objs ->
  Exists (fun obj => exists kvs, obj = JObject kvs /\ assoc "id" kvs = None)
         objs ->
  rmap (fun obj => py_getitem obj "id") objs = Raise KeyError.
Proof.
  intros Hall Hex. induction Hex as [obj objs (kvs & -> & Hid)|obj objs _ IH];
    simpl.
  - by rewrite Hid.
  - apply Forall_cons in Hall as [(kvs & ->) Hall]. simpl.
    destruct (assoc "id" kvs); [|done]. simpl. by rewrite IH.
Qed.

(** X2. A response that is a JSON object whose ["objekter"] is a list of
    objects with an ["id"] each makes [fetch_nvdb_kartutsnitt] return these
    ids, in the order of the response, after one request; nothing is
    printed and, the docstring notwithstanding, nothing is saved. *)
Theorem fetch_nvdb_kartutsnitt_ids (curl : service) (bbox : BoundingBox)
    (w : world) (kvs : list (string * json)) (objs ids : list json) :
  curl (requests w) (CatalogReq bbox) = Stdout (Parses (JObject kvs)) ->
  assoc "objekter" kvs = Some (JArray objs) ->
  Forall2 (fun obj id =>
             exists okvs, obj = JObject okvs /\ assoc "id" okvs = Some id)
          objs ids ->
  fetch_nvdb_kartutsnitt curl bbox w
  = (Ok ids,
     World (dirs w) (files w) (requests w ++ [CatalogReq bbox]) (output w)).
Proof.
  intros Hcurl Hobj Hids. run. rewrite Hcurl. simpl. rewrite Hobj. simpl.
  by rewrite (rmap_ids objs ids Hids).
Qed.

Lemma fetch_nvdb_kartutsnitt_ids_witness :
  let curl : service :=
    fun _ _ => Stdout (Parses (JObject [("objekter",
      JArray [JObject [("id", JInt 7)]; JObject [("id", JInt 3)]])])) in
  let w := World ∅ ∅ [] [] in
  (fetch_nvdb_kartutsnitt curl (PInt 0, PInt 0, PInt 1, PInt 1) w).1 = Ok [JInt 7; JInt 3].
Proof.
  intros curl w.
  rewrite (fetch_nvdb_kartutsnitt_ids curl (PInt 0, PInt 0, PInt 1, PInt 1) w
             [("objekter",
               JArray [JObject [("id", JInt 7)]; JObject [("id", JInt 3)]])]
             [JObject [("id", JInt 7)]; JObject [("id", JInt 3)]]
             [JInt 7; JInt 3]).
  - reflexivity.
  - reflexivity.
  - reflexivity.
  - repeat constructor; eexists; (split; [reflexivity|reflexivity]).
Defined.

(** X3. A JSON object without ["objekter"] counts as an empty listing:
    [fetch_nvdb_kartutsnitt] returns the empty list and, unlike for a failed
    request, prints nothing. *)
Theorem fetch_nvdb_kartutsnitt_no_objekter (curl : service)
    (bbox : BoundingBox) (w : world) (kvs : list (string * json)) :
  curl (requests w) (CatalogReq bbox) = Stdout (Parses (JObject kvs)) ->
  assoc "objekter" kvs = None ->
  fetch_nvdb_kartutsnitt curl bbox w
  = (Ok [],
     World (dirs w) (files w) (requests w ++ [CatalogReq bbox]) (output w)).
Proof. intros Hcurl Hobj. run. rewrite Hcurl. simpl. by rewrite Hobj. Qed.

Lemma fetch_nvdb_kartutsnitt_no_objekter_witness :
  let curl : service :=
    fun _ _ => Stdout (Parses (JObject [("metadata", JObject [])])) in
  let w := World ∅ ∅ [] [] in
  fetch_nvdb_kartutsnitt curl (PInt 0, PInt 0, PInt 1, PInt 1) w
  = (Ok [], World ∅ ∅ [CatalogReq (PInt 0, PInt 0, PInt 1, PInt 1)] []).
Proof.
  intros curl w.
  apply (fetch_nvdb_kartutsnitt_no_objekter curl (PInt 0, PInt 0, PInt 1, PInt 1) w
           [("metadata", JObject [])]); reflexivity.
Defined.

Lemma fetch_sub_boxes_raise (curl : service) w before per_tile w1 bbox after
    e w2 :
  tile_run curl w before per_tile w1 ->
  fetch_tile curl bbox w1 = (Raise e, w2) ->
  forall acc,
    fetch_sub_boxes curl (before ++ bbox :: after) acc w = (Raise e, w2).
Proof.
  induction 1 as [w|w b rest ids w1 per_tile w3 Hturn _ IH]; intros Hraise acc.
  - simpl app. by rewrite fetch_sub_boxes_cons, Hraise.
  - simpl app. rewrite fetch_sub_boxes_cons, Hturn. by apply IH.
Qed.

(** X4. A listing in which one object has no ["id"] is not degraded to an
    empty tile: [KeyError] leaves [fetch_nvdb_kartutsnitt], the catalog phase
    stops there without requesting the remaining tiles, and no aggregate
    file is written. *)
Theorem aggregate_object_ids_missing_id (curl : service)
    (slot : list atom -> atom -> nat)
    (before after : list BoundingBox) (bbox : BoundingBox)
    (w w1 : world) (per_tile : list (list json))
    (kvs : list (string * json)) (objs : list json) :
  has_file object_ids_file w = false ->
  has_dir object_ids_file w = false ->
  tile_run curl w before per_tile w1 ->
  curl (requests w1) (CatalogReq bbox) = Stdout (Parses (JObject kvs)) ->
  assoc "objekter" kvs = Some (JArray objs) ->
  Forall (fun obj => exists okvs, obj = JObject okvs) objs ->
  Exists (fun obj => exists okvs, obj = JObject okvs /\ assoc "id" okvs = None)
         objs ->
  (fetch_nvdb_kartutsnitt curl bbox w1).1 = Raise KeyError /\
  exists w',
    aggregate_object_ids curl slot (before ++ bbox :: after) w
      = (Raise KeyError, w') /\
    files w' = files w /\
    requests w' = requests w ++ (CatalogReq <$> before) ++ [CatalogReq bbox].
Proof.
  intros Hfile Hdir Hrun Hcurl Hobj Hall Hex.
  pose proof (rmap_missing_id objs Hall Hex) as Hids.
  split.
  { run. rewrite Hcurl. simpl. rewrite Hobj. simpl. by rewrite Hids. }
  destruct (tile_run_world _ _ _ _ _ Hrun) as (_ & Hf & Hr & _).
  assert (fetch_tile curl bbox w1
          = (Raise KeyError,
             World (dirs w1) (files w1) (requests w1 ++ [CatalogReq bbox])
                   (output w1 ++ [FetchingSubBox bbox]))) as Hturn.
  { unfold fetch_tile. run. rewrite Hcurl. simpl. rewrite Hobj. simpl.
    by rewrite Hids. }
  eexists. split; [|split].
  - unfold aggregate_object_ids, bind at 1, path_exists.
    rewrite Hfile, Hdir. simpl. unfold bind.
    by rewrite (fetch_sub_boxes_raise _ _ _ _ _ _ after _ _ Hrun Hturn).
  - done.
  - simpl. by rewrite Hr, <- app_assoc.
Qed.

Lemma aggregate_object_ids_missing_id_witness :
  let curl : service :=
    fun _ _ => Stdout (Parses (JObject [("objekter",
      JArray [JObject [("id", JInt 7)]; JObject [("href", JStr "x")]])])) in
  let w := World {[ ["data"; "svv"] ]} ∅ [] [] in
  let slot : list atom -> atom -> nat := fun _ _ => 0%nat in
  exists w',
    aggregate_object_ids curl slot
      [(PInt 0, PInt 0, PInt 1, PInt 1); (PInt 1, PInt 1, PInt 2, PInt 2)] w
      = (Raise KeyError, w') /\
    files w' = ∅.
Proof.
  intros curl w slot.
  destruct (aggregate_object_ids_missing_id curl slot []
              [(PInt 1, PInt 1, PInt 2, PInt 2)]
              (PInt 0, PInt 0, PInt 1, PInt 1) w w []
              [("objekter",
                JArray [JObject [("id", JInt 7)]; JObject [("href", JStr "x")]])]
              [JObject [("id", JInt 7)]; JObject [("href", JStr "x")]])
    as (_ & w' & Hagg & Hf & _).
  - reflexivity.
  - vm_compute. reflexivity.
  - constructor.
  - reflexivity.
  - reflexivity.
  - repeat constructor; eexists; reflexivity.
  - apply Exists_cons_tl, Exists_cons_hd. eexists. split; reflexivity.
  - exists w'. split; [exact Hagg | exact Hf].
Defined.

(** ** Detail extraction and the per-id cache *)

Lemma rfold_egenskaper (items : list json) (props : list (Z * json))
    (ådt_value : json) :
  Forall2 (fun item prop =>
             exists kvs, item = JObject kvs /\
               assoc "id" kvs = Some (JInt prop.1) /\
               assoc "verdi" kvs = Some prop.2)
          items props ->
  rfold (fun ådt_value egenskap =>
           let? id := py_getitem egenskap "id" in
           if py_eq_int id 4623 then py_getitem egenskap "verdi"
           else Ok ådt_value)
        ådt_value items
  = Ok (from_option snd ådt_value
          (last (filter (fun prop => prop.1 = 4623) props))).
Proof.
  intros Hall. revert ådt_value.
  induction Hall as [|item [n v] items props (kvs & -> & Hid & Hv) _ IH];
    intros ådt_value; [done|].
  simpl in Hid, Hv, IH. simpl. rewrite Hid. simpl.
  rewrite filter_cons. simpl.
  destruct (decide (n = 4623)) as [->|Hne].
  - simpl. rewrite Hv. simpl. rewrite IH.
    by destruct (filter _ props) as [|p l] using rev_ind;
      [|rewrite app_comm_cons, !last_snoc].
  - rewrite (proj2 (Z.eqb_neq n 4623) Hne). simpl. by rewrite IH.
Qed.

(** X5. The traffic volume of a detail response is the ["verdi"] of its
    last property with code 4623, and [None] when no property has that code;
    the geometry is the text under ["geometri"]["wkt"]. *)
Theorem extract_details_last_match (kvs geometri : list (string * json))
    (wkt : json) (items : list json) (props : list (Z * json)) :
  assoc "geometri" kvs = Some (JObject geometri) ->
  assoc "wkt" geometri = Some wkt ->
  assoc "egenskaper" kvs = Some (JArray items) ->
  Forall2 (fun item prop =>
             exists pkvs, item = JObject pkvs /\
               assoc "id" pkvs = Some (JInt prop.1) /\
               assoc "verdi" pkvs = Some prop.2)
          items props ->
  extract_details (JObject kvs)
  = Ok (wkt,
        from_option snd JNone
          (last (filter (fun prop => prop.1 = 4623) props))).
Proof.
  intros Hgeo Hwkt Hegs Hprops. unfold extract_details. simpl.
  rewrite Hgeo. simpl. rewrite Hwkt. simpl. rewrite Hegs. simpl.
  pose proof (rfold_egenskaper items props JNone Hprops) as Hfold.
  simpl in Hfold. by rewrite Hfold.
Qed.

Lemma extract_details_last_match_witness :
  extract_details
    (JObject [("geometri", JObject [("wkt", JStr "LINESTRING (0 0, 1 1)")]);
              ("egenskaper",
               JArray [JObject [("id", JInt 4623); ("verdi", JInt 500)];
                       JObject [("id", JInt 4624); ("verdi", JInt 9)];
                       JObject [("id", JInt 4623); ("verdi", JInt 700)]])])
  = Ok (JStr "LINESTRING (0 0, 1 1)", JInt 700).
Proof.
  apply (extract_details_last_match _ [("wkt", JStr "LINESTRING (0 0, 1 1)")]
           _ [JObject [("id", JInt 4623); ("verdi", JInt 500)];
              JObject [("id", JInt 4624); ("verdi", JInt 9)];
              JObject [("id", JInt 4623); ("verdi", JInt 700)]]
           [(4623, JInt 500); (4624, JInt 9); (4623, JInt 700)]).
  - reflexivity.
  - reflexivity.
  - reflexivity.
  - repeat constructor; eexists; repeat split; reflexivity.
Defined.

(** X6. A response without ["egenskaper"] is not an error: the traffic
    volume is [None] and the geometry is still returned. *)
Theorem extract_details_no_egenskaper (kvs geometri : list (string * json))
    (wkt : json) :
  assoc "geometri" kvs = Some (JObject geometri) ->
  assoc "wkt" geometri = Some wkt ->
  assoc "egenskaper" kvs = None ->
  extract_details (JObject kvs) = Ok (wkt, JNone).
Proof.
  intros Hgeo Hwkt Hegs. unfold extract_details. simpl.
  rewrite Hgeo. simpl. rewrite Hwkt. simpl. by rewrite Hegs.
Qed.

Lemma extract_details_no_egenskaper_witness :
  extract_details
    (JObject [("geometri", JObject [("wkt", JStr "LINESTRING (0 0, 1 1)")])])
  = Ok (JStr "LINESTRING (0 0, 1 1)", JNone).
Proof.
  apply (extract_details_no_egenskaper _ [("wkt", JStr "LINESTRING (0 0, 1 1)")]);
    reflexivity.
Defined.

(** X7. Whatever [extract_details] returns as geometry was found under
    ["geometri"]["wkt"] of a JSON object: a response of another shape never
    yields a detail. *)
Theorem extract_details_geometry (response_json geometry ådt_value : json) :
  extract_details response_json = Ok (geometry, ådt_value) ->
  exists kvs geometri,
    response_json = JObject kvs /\
    assoc "geometri" kvs = Some (JObject geometri) /\
    assoc "wkt" geometri = Some geometry.
Proof.
  unfold extract_details. intros H.
  destruct response_json as [a|l|kvs]; try done. simpl in H.
  destruct (assoc "geometri" kvs) as [[a|l|geometri]|] eqn:Hgeo; try done.
  simpl in H. destruct (assoc "wkt" geometri) as [wkt|] eqn:Hwkt; [|done].
  simpl in H.
  destruct (assoc "egenskaper" kvs) as [egs|]; simpl in H.
  - destruct (py_iter egs) as [items|]; [|done]. simpl in H.
    destruct (rfold _ _ items); [|done]. simpl in H.
    injection H as -> _. eauto.
  - injection H as -> _. eauto.
Qed.

Lemma extract_details_geometry_witness :
  exists kvs geometri,
    JObject [("geometri", JObject [("wkt", JStr "LINESTRING (0 0, 1 1)")])]
      = JObject kvs /\
    assoc "geometri" kvs = Some (JObject geometri) /\
    assoc "wkt" geometri = Some (JStr "LINESTRING (0 0, 1 1)").
Proof.
  apply (extract_details_geometry _ _ JNone). reflexivity.
Defined.

Lemma string_length_app (s t : string) :
  String.length (s +:+ t) = (String.length s + String.length t)%nat.
Proof.
  induction s as [|a s IH]; [done|].
  change (String a s +:+ t) with (String a (s +:+ t)). simpl. by rewrite IH.
Qed.

Lemma string_app_inv_tail (s1 s2 t : string) :
  s1 +:+ t = s2 +:+ t -> s1 = s2.
Proof.
  revert s2. induction s1 as [|a s1 IH]; intros [|b s2] H.
  - done.
  - exfalso. apply (f_equal String.length) in H.
    rewrite !string_length_app in H. simpl in H. lia.
  - exfalso. apply (f_equal String.length) in H.
    rewrite !string_length_app in H. simpl in H. lia.
  - change (String a (s1 +:+ t) = String b (s2 +:+ t)) in H.
    injection H as -> H. f_equal. by apply IH.
Qed.

(** Integer ids do not share a cache file. *)
Lemma object_file_int_inj (n m : Z) :
  object_file (AInt n) = object_file (AInt m) -> n = m.
Proof.
  unfold object_file. simpl. intros H. injection H as H.
  apply string_app_inv_tail in H. by apply (inj pretty) in H.
Qed.

(** What a call of [fetch_object_details] can do to the world: nothing but
    print, or one request with the file system untouched, or one request
    and the response stored under the id's cache path. *)
Lemma fetch_object_details_cases (curl : service) (object_id : atom)
    (w : world) :
  dirs (fetch_object_details curl object_id w).2 = dirs w /\
  ((files (fetch_object_details curl object_id w).2 = files w /\
    requests (fetch_object_details curl object_id w).2 = requests w) \/
   (files w !! object_file object_id = None /\
    files (fetch_object_details curl object_id w).2 = files w /\
    requests (fetch_object_details curl object_id w).2
      = requests w ++ [DetailReq object_id]) \/
   (exists j,
      files w !! object_file object_id = None /\
      (fetch_object_details curl object_id w).1 = extract_details j /\
      files (fetch_object_details curl object_id w).2
        = <[object_file object_id := Parses j]> (files w) /\
      requests (fetch_object_details curl object_id w).2
        = requests w ++ [DetailReq object_id])).
Proof.
  destruct (files w !! object_file object_id) as [c|] eqn:Hc.
  { destruct (fetch_object_details_hit curl object_id w c Hc)
      as (w' & -> & Hd & Hf & Hr). simpl. split; [done|]. left. done. }
  pose proof (proj2 (has_file_None _ _) Hc) as Hfile.
  destruct (has_dir (object_file object_id) w) eqn:Hdir.
  { run. rewrite Hfile, Hdir. simpl. rewrite Hc, Hdir. simpl.
    split; [done|]. left. done. }
  destruct (curl (requests w) (DetailReq object_id)) as [| | |[j|]] eqn:Hcurl.
  - run. rewrite Hfile, Hdir. simpl. rewrite Hcurl. simpl.
    split; [done|]. right. left. done.
  - run. rewrite Hfile, Hdir. simpl. rewrite Hcurl. simpl.
    split; [done|]. right. left. done.
  - run. rewrite Hfile, Hdir. simpl. rewrite Hcurl. simpl.
    split; [done|]. right. left. done.
  - destruct (has_dir (parent (object_file object_id)) w) eqn:Hparent.
    + rewrite (fetch_object_details_store curl object_id w j) by done. simpl.
      split; [done|]. right. right. exists j. done.
    + run. rewrite Hfile, Hdir. simpl. rewrite Hcurl. simpl.
      rewrite !has_dir_World, Hdir.
      change (has_dir _ w) with (has_dir (parent (object_file object_id)) w).
      rewrite Hparent. simpl. split; [done|]. right. left. done.
  - run. rewrite Hfile, Hdir. simpl. rewrite Hcurl. simpl.
    split; [done|]. right. left. done.
Qed.

(** Whatever its outcome, [fetch_object_details] creates no directory,
    changes no file other than the cache file of its id, never replaces or
    removes a cache file that exists, and issues at most one request, the
    detail request for its id. *)
Lemma fetch_object_details_footprint (curl : service) (object_id : atom)
    (w : world) :
  let w' := (fetch_object_details curl object_id w).2 in
  dirs w' = dirs w /\
  (forall p, p <> object_file object_id -> files w' !! p = files w !! p) /\
  (forall p c, files w !! p = Some c -> files w' !! p = Some c) /\
  (requests w' = requests w \/
   requests w' = requests w ++ [DetailReq object_id]).
Proof.
  intros w'. subst w'.
  destruct (fetch_object_details_cases curl object_id w)
    as (Hd & [[Hf Hr]|[(Hc & Hf & Hr)|(j & Hc & _ & Hf & Hr)]]);
    rewrite Hd, Hf, Hr; repeat split; auto.
  - intros p Hp. by rewrite lookup_insert_ne.
  - intros p c Hp. rewrite lookup_insert_ne; [done|]. congruence.
Qed.

(** X8. Whatever its outcome, [fetch_object_details] creates no directory,
    changes no file other than the cache file of its id, never replaces or
    removes a cache file that exists, and issues at most one request, the
    detail request for its id. *)
Theorem fetch_object_details_frame (curl : service) (object_id : atom)
    (w : world) :
  let w' := (fetch_object_details curl object_id w).2 in
  dirs w' = dirs w /\
  (forall p, p <> object_file object_id -> files w' !! p = files w !! p) /\
  (forall p c, files w !! p = Some c -> files w' !! p = Some c) /\
  (requests w' = requests w \/
   requests w' = requests w ++ [DetailReq object_id]).
Proof. apply fetch_object_details_footprint. Qed.

(** X9. A cache file that does not hold valid JSON is never repaired: the
    call raises [JSONDecodeError] without asking the service and leaves the
    world as it was. *)
Theorem fetch_object_details_corrupt_cache (curl : service)
    (object_id : atom) (w : world) :
  files w !! object_file object_id = Some Malformed ->
  fetch_object_details curl object_id w = (Raise JSONDecodeError, w).
Proof.
  intros Hc. run. unfold has_file. rewrite Hc. simpl. rewrite Hc. done.
Qed.

Lemma fetch_object_details_corrupt_cache_witness :
  let w := World {[ ["data"; "svv"; "object_ids"] ]}
             {[ object_file (AInt 1) := Malformed ]} [] [] in
  fetch_object_details (fun _ _ => Stdout (Parses (JObject []))) (AInt 1) w
  = (Raise JSONDecodeError, w).
Proof.
  intros w. apply fetch_object_details_corrupt_cache.
  vm_compute. reflexivity.
Defined.

(** X10. Fetching the detail of one integer id leaves the cache entry of
    every other integer id as it was. *)
Theorem fetch_object_details_other_id (curl : service) (n m : Z) (w : world) :
  n <> m ->
  files (fetch_object_details curl (AInt n) w).2 !! object_file (AInt m)
  = files w !! object_file (AInt m).
Proof.
  intros Hnm.
  destruct (fetch_object_details_footprint curl (AInt n) w) as (_ & Hother & _).
  apply Hother. intros Heq. apply Hnm. symmetry. by apply object_file_int_inj.
Qed.

Lemma fetch_object_details_other_id_witness :
  let w := World {[ ["data"; "svv"; "object_ids"] ]}
             {[ object_file (AInt 2) := Parses (JObject []) ]} [] [] in
  let curl : service := fun _ _ => Stdout (Parses (JObject [])) in
  files (fetch_object_details curl (AInt 1) w).2 !! object_file (AInt 2)
  = files w !! object_file (AInt 2).
Proof.
  intros w curl. apply fetch_object_details_other_id. lia.
Defined.

(** Whenever the cache file of the id exists after a call, what the call
    returned or raised is the extraction from that file. *)
Lemma fetch_object_details_from_cache (curl : service) (object_id : atom)
    (w : world) (c : payload) :
  files (fetch_object_details curl object_id w).2 !! object_file object_id
    = Some c ->
  (fetch_object_details curl object_id w).1
  = (let? response_json := json_loads c in extract_details response_json).
Proof.
  intros Hafter.
  destruct (files w !! object_file object_id) as [c0|] eqn:Hc.
  - destruct (fetch_object_details_hit curl object_id w c0 Hc)
      as (w' & Hrun & _ & Hf & _).
    rewrite Hrun in Hafter |- *. simpl in *. rewrite Hf, Hc in Hafter.
    by injection Hafter as ->.
  - destruct (fetch_object_details_cases curl object_id w)
      as (_ & [[Hf _]|[(_ & Hf & _)|(j & _ & Hres & Hf & _)]]);
      rewrite Hf in Hafter.
    + congruence.
    + congruence.
    + rewrite lookup_insert_eq in Hafter. injection Hafter as <-. done.
Qed.

(** ** The loop over the ids *)

Lemma collect_roads_data_cons (curl : service) (object_id : atom)
    (rest : list atom) (roads_data : list (json * json)) (w : world) :
  collect_roads_data curl (object_id :: rest) roads_data w
  = match fetch_object_details curl object_id w with
    | (Ok detail, w1) =>
        collect_roads_data curl rest
          (if py_truthy detail.1 && negb (is_None detail.2)
           then roads_data ++ [detail] else roads_data) w1
    | (Raise e, w1) => (Raise e, w1)
    end.
Proof.
  simpl. unfold bind.
  destruct (fetch_object_details curl object_id w) as [[[g a]|e] w1]; done.
Qed.

(** X11. The loop over the ids only adds usable pairs to [roads_data]: a
    geometry that is truthy and a traffic volume that is not [None], at
    most one pair per id, after the pairs that were there. *)
Theorem collect_roads_data_usable (curl : service) (all_object_ids : list atom)
    (roads_data collected : list (json * json)) (w w' : world) :
  collect_roads_data curl all_object_ids roads_data w = (Ok collected, w') ->
  exists added,
    collected = roads_data ++ added /\
    Forall (fun road => py_truthy road.1 = true /\ is_None road.2 = false)
           added /\
    (length added <= length all_object_ids)%nat.
Proof.
  revert roads_data w.
  induction all_object_ids as [|object_id rest IH]; intros roads_data w Hrun.
  - simpl in Hrun. injection Hrun as <- _. exists [].
    rewrite app_nil_r. repeat split; [constructor|done].
  - rewrite collect_roads_data_cons in Hrun.
    destruct (fetch_object_details curl object_id w) as [[[g a]|e] w1];
      [|done].
    apply IH in Hrun as (added & -> & Hall & Hlen). simpl.
    destruct (py_truthy g && negb (is_None a)) eqn:Huse.
    + exists ((g, a) :: added). rewrite <- app_assoc. simpl.
      apply andb_true_iff in Huse as [Hg Ha]. apply negb_true_iff in Ha.
      repeat split; [by constructor|lia].
    + exists added. repeat split; [done|lia].
Qed.

Lemma collect_roads_data_usable_witness :
  let w := World {[ ["data"; "svv"; "object_ids"] ]} ∅ [] [] in
  let curl : service :=
    fun before _ =>
      match before with
      | [] => Stdout (Parses (JObject [("geometri",
                                        JObject [("wkt", JStr "LINESTRING")])]))
      | _ => Stdout (Parses (JObject
               [("geometri", JObject [("wkt", JStr "LINESTRING")]);
                ("egenskaper",
                 JArray [JObject [("id", JInt 4623); ("verdi", JInt 80)]])]))
      end in
  exists added,
    (collect_roads_data curl [AInt 1; AInt 2] [] w).1 = Ok ([] ++ added) /\
    (length added <= 2)%nat.
Proof.
  intros w curl.
  destruct (collect_roads_data_usable curl [AInt 1; AInt 2] []
              [(JStr "LINESTRING", JInt 80)] w
              (collect_roads_data curl [AInt 1; AInt 2] [] w).2)
    as (added & Heq & _ & Hlen).
  - vm_compute. reflexivity.
  - exists added. split; [|exact Hlen]. rewrite <- Heq. vm_compute. reflexivity.
Defined.

(** Whatever its outcome, the loop over the ids creates no
    directory, keeps every file that exists, writes no file other than the
    cache files of the listed ids, and issues only detail requests for
    listed ids, in list order and at most one per entry. *)
Lemma collect_roads_data_footprint (curl : service) (all_object_ids : list atom)
    (roads_data : list (json * json)) (w : world) :
  let w' := (collect_roads_data curl all_object_ids roads_data w).2 in
  dirs w' = dirs w /\
  (forall p c, files w !! p = Some c -> files w' !! p = Some c) /\
  (forall p, p ∉ object_file <$> all_object_ids ->
     files w' !! p = files w !! p) /\
  exists issued,
    requests w' = requests w ++ issued /\
    sublist issued (DetailReq <$> all_object_ids).
Proof.
  revert roads_data w.
  induction all_object_ids as [|object_id rest IH]; intros roads_data w.
  - simpl. repeat split; try done. exists []. by rewrite app_nil_r.
  - cbv zeta. rewrite collect_roads_data_cons.
    destruct (fetch_object_details_footprint curl object_id w)
      as (Hd & Hother & Hkeep & Hreq).
    destruct (fetch_object_details curl object_id w) as [[detail|e] w1];
      simpl in Hd, Hother, Hkeep, Hreq.
    + destruct (IH (if py_truthy detail.1 && negb (is_None detail.2)
                    then roads_data ++ [detail] else roads_data) w1)
        as (Hd' & Hkeep' & Hother' & issued & Hreq' & Hsub).
      split; [by rewrite Hd', Hd|]. split; [|split].
      * intros p c Hp. by apply Hkeep', Hkeep.
      * intros p Hp. rewrite ?fmap_cons in Hp.
        apply not_elem_of_cons in Hp as [Hne Hp].
        rewrite Hother' by done. by apply Hother.
      * destruct Hreq as [Hreq|Hreq]; rewrite Hreq', Hreq.
        -- exists issued. split; [done|]. rewrite ?fmap_cons.
           by apply sublist_cons.
        -- exists (DetailReq object_id :: issued). rewrite <- app_assoc.
           split; [done|]. rewrite ?fmap_cons. by apply sublist_skip.
    + simpl. split; [done|]. split; [done|]. split.
      * intros p Hp. rewrite ?fmap_cons in Hp.
        apply not_elem_of_cons in Hp as [Hne Hp]. by apply Hother.
      * destruct Hreq as [Hreq|Hreq]; rewrite Hreq.
        -- exists []. rewrite app_nil_r. split; [done|]. apply sublist_nil_l.
        -- exists [DetailReq object_id]. split; [done|]. rewrite ?fmap_cons.
           apply sublist_skip, sublist_nil_l.
Qed.

(** X12. Whatever its outcome, the loop over the ids creates no
    directory, keeps every file that exists, writes no file other than the
    cache files of the listed ids, and issues only detail requests for
    listed ids, in list order and at most one per entry. *)
Theorem collect_roads_data_frame (curl : service) (all_object_ids : list atom)
    (roads_data : list (json * json)) (w : world) :
  let w' := (collect_roads_data curl all_object_ids roads_data w).2 in
  dirs w' = dirs w /\
  (forall p c, files w !! p = Some c -> files w' !! p = Some c) /\
  (forall p, p ∉ object_file <$> all_object_ids ->
     files w' !! p = files w !! p) /\
  exists issued,
    requests w' = requests w ++ issued /\
    sublist issued (DetailReq <$> all_object_ids).
Proof. apply collect_roads_data_footprint. Qed.

(** When every listed id has its cache file, the loop over the ids
    runs off line: no request is issued and no file changes. *)
Lemma collect_roads_data_cached (curl : service)
    (all_object_ids : list atom) (roads_data : list (json * json))
    (w : world) :
  (forall object_id, object_id ∈ all_object_ids ->
     has_file (object_file object_id) w = true) ->
  requests (collect_roads_data curl all_object_ids roads_data w).2
    = requests w /\
  files (collect_roads_data curl all_object_ids roads_data w).2 = files w.
Proof.
  revert roads_data w.
  induction all_object_ids as [|object_id rest IH]; intros roads_data w Hall.
  - done.
  - rewrite collect_roads_data_cons.
    destruct (proj1 (has_file_lookup _ _) (Hall object_id ltac:(by left)))
      as [c Hc].
    destruct (fetch_object_details_hit curl object_id w c Hc)
      as (w1 & -> & _ & Hf & Hr).
    destruct (let? response_json := json_loads c in
              extract_details response_json) as [detail|e]; [|done].
    destruct (IH (if py_truthy detail.1 && negb (is_None detail.2)
                  then roads_data ++ [detail] else roads_data) w1)
      as [Hr' Hf'].
    + intros id Hid. unfold has_file. rewrite Hf.
      apply (Hall id). by right.
    + by rewrite Hr', Hf', Hr, Hf.
Qed.

(** X13. When every listed id has its cache file, the loop over the ids
    runs off line: no request is issued and no file changes. *)
Theorem collect_roads_data_offline (curl : service)
    (all_object_ids : list atom) (roads_data : list (json * json))
    (w : world) :
  (forall object_id, object_id ∈ all_object_ids ->
     has_file (object_file object_id) w = true) ->
  requests (collect_roads_data curl all_object_ids roads_data w).2
    = requests w /\
  files (collect_roads_data curl all_object_ids roads_data w).2 = files w.
Proof. apply collect_roads_data_cached. Qed.

Lemma collect_roads_data_offline_witness :
  let w := World {[ ["data"; "svv"; "object_ids"] ]}
             {[ object_file (AInt 1) :=
                  Parses (JObject [("geometri",
                                    JObject [("wkt", JStr "LINESTRING")])]) ]}
             [] [] in
  requests (collect_roads_data (fun _ _ => ExitNonZero) [AInt 1] [] w).2 = [].
Proof.
  intros w.
  apply (collect_roads_data_offline (fun _ _ => ExitNonZero) [AInt 1] [] w).
  intros id Hid. apply list_elem_of_singleton in Hid as ->.
  vm_compute. reflexivity.
Defined.

Lemma collect_roads_data_replay_from (curl curl' : service)
    (all_object_ids : list atom) :
  forall (roads_data collected : list (json * json)) (w w1 : world),
    NoDup (object_file <$> all_object_ids) ->
    collect_roads_data curl all_object_ids roads_data w = (Ok collected, w1) ->
    (forall object_id, object_id ∈ all_object_ids ->
       has_file (object_file object_id) w1 = true) ->
    forall ws,
      (forall object_id, object_id ∈ all_object_ids ->
         files ws !! object_file object_id
         = files w1 !! object_file object_id) ->
      exists ws',
        collect_roads_data curl' all_object_ids roads_data ws
          = (Ok collected, ws') /\
        requests ws' = requests ws /\ files ws' = files ws.
Proof.
  induction all_object_ids as [|object_id rest IH];
    intros roads_data collected w w1 Hnd Hrun Hall ws Hsame.
  - simpl in Hrun. injection Hrun as <- _. by exists ws.
  - rewrite fmap_cons in Hnd. apply NoDup_cons in Hnd as [Hfresh Hnd].
    rewrite collect_roads_data_cons in Hrun |- *.
    destruct (fetch_object_details curl object_id w) as [[detail|e] wa]
      eqn:Hfetch; [|done].
    destruct (proj1 (has_file_lookup _ _) (Hall object_id ltac:(by left)))
      as [c Hc].
    destruct (collect_roads_data_footprint curl rest
                (if py_truthy detail.1 && negb (is_None detail.2)
                 then roads_data ++ [detail] else roads_data) wa)
      as (_ & _ & Hother & _).
    rewrite Hrun in Hother. simpl in Hother.
    rewrite (Hother _ Hfresh) in Hc.
    pose proof (fetch_object_details_from_cache curl object_id w c) as Hres.
    rewrite Hfetch in Hres. simpl in Hres. specialize (Hres Hc).
    assert (files ws !! object_file object_id = Some c) as Hcs.
    { rewrite (Hsame object_id) by (by left). by rewrite (Hother _ Hfresh). }
    destruct (fetch_object_details_hit curl' object_id ws c Hcs)
      as (ws1 & -> & _ & Hf1 & Hr1).
    rewrite <- Hres.
    destruct (IH _ _ _ _ Hnd Hrun
                (fun id Hid => Hall id ltac:(by right)) ws1)
      as (ws' & Hagain & Hr' & Hf').
    { intros id Hid. rewrite Hf1. apply Hsame. by right. }
    exists ws'. split; [done|]. by rewrite Hr', Hf', Hr1, Hf1.
Qed.

(** X14. A run of the loop over the ids that ends with a cache file for
    every listed id can be replayed: run again from the world it left, with
    any service, it returns the same [roads_data] without a single request
    and without changing a file.  The ids are taken to have distinct cache
    files. *)
Theorem collect_roads_data_replay (curl curl' : service)
    (all_object_ids : list atom) (roads_data collected : list (json * json))
    (w w1 : world) :
  NoDup (object_file <$> all_object_ids) ->
  collect_roads_data curl all_object_ids roads_data w = (Ok collected, w1) ->
  (forall object_id, object_id ∈ all_object_ids ->
     has_file (object_file object_id) w1 = true) ->
  exists w2,
    collect_roads_data curl' all_object_ids roads_data w1 = (Ok collected, w2) /\
    requests w2 = requests w1 /\ files w2 = files w1.
Proof.
  intros Hnd Hrun Hall.
  by apply (collect_roads_data_replay_from curl curl' all_object_ids
              roads_data collected w w1 Hnd Hrun Hall w1).
Qed.

Lemma collect_roads_data_replay_witness :
  let w := World {[ ["data"; "svv"; "object_ids"] ]} ∅ [] [] in
  let curl : service :=
    fun _ _ =>
      Stdout (Parses (JObject
        [("geometri", JObject [("wkt", JStr "LINESTRING")]);
         ("egenskaper",
          JArray [JObject [("id", JInt 4623); ("verdi", JInt 80)]])])) in
  let w1 := (collect_roads_data curl [AInt 1; AInt 2] [] w).2 in
  exists w2,
    collect_roads_data (fun _ _ => ExitNonZero) [AInt 1; AInt 2] [] w1
      = (Ok [(JStr "LINESTRING", JInt 80); (JStr "LINESTRING", JInt 80)], w2) /\
    requests w2 = requests w1.
Proof.
  intros w curl w1.
  destruct (collect_roads_data_replay curl (fun _ _ => ExitNonZero)
              [AInt 1; AInt 2] []
              [(JStr "LINESTRING", JInt 80); (JStr "LINESTRING", JInt 80)]
              w w1) as (w2 & Hagain & Hreq & _).
  - vm_compute. repeat constructor; set_solver.
  - vm_compute. reflexivity.
  - intros id Hid. apply elem_of_cons in Hid as [->|Hid].
    + vm_compute. reflexivity.
    + apply list_elem_of_singleton in Hid as ->. vm_compute. reflexivity.
  - exists w2. split; [exact Hagain | exact Hreq].
Defined.

(** ** The catalog phase as a whole *)

Lemma fetch_sub_boxes_world (curl : service) (sub_boxes : list BoundingBox) :
  forall (acc : list json) (w : world),
    dirs (fetch_sub_boxes curl sub_boxes acc w).2 = dirs w /\
    files (fetch_sub_boxes curl sub_boxes acc w).2 = files w.
Proof.
  induction sub_boxes as [|bbox rest IH]; intros acc w; [done|].
  rewrite fetch_sub_boxes_cons.
  destruct (fetch_tile_world curl bbox w) as (Hd & Hf & _).
  destruct (fetch_tile curl bbox w) as [[ids|e] w1]; simpl in Hd, Hf.
  - destruct (IH (acc ++ ids) w1) as [Hd' Hf']. by rewrite Hd', Hf', Hd, Hf.
  - done.
Qed.

Lemma bind_eq {A B} (m : M A) (k : A -> M B) (w : world) :
  bind m k w
  = match m w with
    | (Ok a, w') => k a w'
    | (Raise e, w') => (Raise e, w')
    end.
Proof. reflexivity. Qed.

Lemma load_object_ids_world (w w0 : world) (r : result json) :
  (let! text := open_r object_ids_file in
   let! loaded := lift (json_loads text) in
   let! _ := print (LoadedObjectIds object_ids_file) in
   ret loaded) w = (r, w0) ->
  dirs w0 = dirs w /\ files w0 = files w /\ requests w0 = requests w.
Proof.
  unfold bind, open_r, lift, print, ret.
  destruct (files w !! object_ids_file) as [[loaded|]|]; simpl.
  - by intros [= <- <-].
  - by intros [= <- <-].
  - destruct (has_dir object_ids_file w); by intros [= <- <-].
Qed.

(** The two ends of Step 1: it raises and the files are as before, or it
    returns ids without duplicates and the aggregate file holds exactly
    them. *)
Lemma aggregate_object_ids_cases (curl : service)
    (slot : list atom -> atom -> nat)
    (sub_boxes : list BoundingBox) (w : world) :
  dirs (aggregate_object_ids curl slot sub_boxes w).2 = dirs w /\
  ((exists e,
      (aggregate_object_ids curl slot sub_boxes w).1 = Raise e /\
      files (aggregate_object_ids curl slot sub_boxes w).2 = files w) \/
   (exists ids,
      (aggregate_object_ids curl slot sub_boxes w).1 = Ok ids /\
      NoDup (py_key <$> ids) /\
      files (aggregate_object_ids curl slot sub_boxes w).2
        = <[object_ids_file := Parses (JArray (JAtom <$> ids))]> (files w) /\
      has_dir object_ids_file w = false /\
      has_dir (parent object_ids_file) w = true)).
Proof.
  assert (forall (loaded : json) (w0 : world),
    dirs w0 = dirs w -> files w0 = files w ->
    let tail :=
      (let! items := lift (py_iter loaded) in
       let! hashed := lift (rmap py_hashable items) in
       let all_object_ids := py_set slot hashed in
       let! _ := open_w_dump object_ids_file
                   (JArray (map JAtom all_object_ids)) in
       let! _ := print (SavedObjectIds object_ids_file) in
       ret all_object_ids) w0 in
    dirs tail.2 = dirs w /\
    ((exists e, tail.1 = Raise e /\ files tail.2 = files w) \/
     (exists ids,
        tail.1 = Ok ids /\ NoDup (py_key <$> ids) /\
        files tail.2
          = <[object_ids_file := Parses (JArray (JAtom <$> ids))]> (files w) /\
        has_dir object_ids_file w = false /\
        has_dir (parent object_ids_file) w = true))) as Htail.
  { intros loaded w0 Hd Hf. unfold bind, lift, ret, print, open_w_dump. simpl.
    destruct (py_iter loaded) as [items|e]; simpl; [|eauto].
    destruct (rmap py_hashable items) as [hashed|e]; simpl; [|eauto].
    destruct w0 as [d0 f0 r0 o0]. simpl in Hd, Hf. subst d0 f0.
    rewrite !has_dir_World.
    destruct (has_dir object_ids_file w) eqn:Hdir; simpl; [eauto|].
    change (has_dir ["data"; "svv"] w)
      with (has_dir (parent object_ids_file) w).
    destruct (has_dir (parent object_ids_file) w) eqn:Hparent; simpl; [|eauto].
    split; [done|]. right. exists (py_set slot hashed).
    repeat split; try done. apply py_set_NoDup. }
  unfold aggregate_object_ids. rewrite bind_eq. unfold path_exists.
  cbv beta iota.
  destruct (has_file object_ids_file w || has_dir object_ids_file w).
  - rewrite bind_eq.
    destruct ((let! text := open_r object_ids_file in
               let! loaded := lift (json_loads text) in
               let! _ := print (LoadedObjectIds object_ids_file) in
               ret loaded) w) as [[loaded|e] w0] eqn:Hload;
      apply load_object_ids_world in Hload as (Hd & Hf & _).
    + by apply Htail.
    + simpl. rewrite Hd, Hf. eauto.
  - rewrite bind_eq.
    destruct (fetch_sub_boxes_world curl sub_boxes [] w) as [Hd Hf].
    rewrite (bind_eq (fetch_sub_boxes curl sub_boxes [])).
    destruct (fetch_sub_boxes curl sub_boxes [] w) as [[fetched|e] wt];
      simpl in Hd, Hf.
    + by apply Htail.
    + simpl. rewrite Hd, Hf. eauto.
Qed.

(** X15. Step 1 changes no file but the aggregate file and creates no
    directory; when it raises, the aggregate file too is as before, and
    when it returns, the aggregate file holds exactly the returned ids,
    which are pairwise distinct. *)
Theorem aggregate_object_ids_frame (curl : service)
    (slot : list atom -> atom -> nat)
    (sub_boxes : list BoundingBox) (w : world) :
  let run := aggregate_object_ids curl slot sub_boxes w in
  dirs run.2 = dirs w /\
  (forall p, p <> object_ids_file -> files run.2 !! p = files w !! p) /\
  (forall e, run.1 = Raise e -> files run.2 = files w) /\
  (forall ids, run.1 = Ok ids ->
     NoDup (py_key <$> ids) /\
     files run.2 !! object_ids_file = Some (Parses (JArray (JAtom <$> ids)))).
Proof.
  intros run. subst run.
  destruct (aggregate_object_ids_cases curl slot sub_boxes w)
    as (Hd & [(e & Hr & Hf)|(ids & Hr & Hnd & Hf & _)]); rewrite Hr, Hf.
  - repeat split; try done.
  - repeat split; try done.
    + intros p Hp. by rewrite lookup_insert_ne.
    + by injection H as <-.
    + injection H as <-. apply lookup_insert_eq.
Qed.

(** Step 1 on an aggregate file that holds a list of scalars. *)
Lemma aggregate_object_ids_reload (curl : service)
    (slot : list atom -> atom -> nat)
    (sub_boxes : list BoundingBox) (w : world) (ids : list atom) :
  files w !! object_ids_file = Some (Parses (JArray (JAtom <$> ids))) ->
  has_dir object_ids_file w = false ->
  has_dir (parent object_ids_file) w = true ->
  aggregate_object_ids curl slot sub_boxes w
  = (Ok (py_set slot ids),
     World (dirs w)
           (<[object_ids_file := Parses (JArray (JAtom <$> py_set slot ids))]>
              (files w))
           (requests w)
           (output w ++ [LoadedObjectIds object_ids_file]
                     ++ [SavedObjectIds object_ids_file])).
Proof.
  intros Hc Hdir Hparent.
  unfold aggregate_object_ids, bind, path_exists, ret, lift, open_r, print.
  rewrite (proj2 (has_file_lookup _ _) (ex_intro _ _ Hc)). simpl.
  rewrite Hc. simpl. rewrite rmap_hashable_atoms.
  unfold open_w_dump. rewrite !has_dir_World, Hdir, Hparent. simpl.
  by rewrite <- app_assoc.
Qed.

(** X16. A catalog phase that returned is memoized: run again from the
    world it left, with any service, any tiles and any order of the hash
    table, Step 1 issues no request and returns the same ids up to their
    order; it writes them back to the aggregate file and changes no other
    file. *)
Theorem aggregate_object_ids_memoized (curl curl' : service)
    (slot slot' : list atom -> atom -> nat)
    (sub_boxes sub_boxes' : list BoundingBox) (w w1 : world)
    (ids : list atom) :
  aggregate_object_ids curl slot sub_boxes w = (Ok ids, w1) ->
  exists ids' w2,
    aggregate_object_ids curl' slot' sub_boxes' w1 = (Ok ids', w2) /\
    ids' ≡ₚ ids /\
    requests w2 = requests w1 /\
    dirs w2 = dirs w1 /\
    (forall p, p <> object_ids_file -> files w2 !! p = files w1 !! p) /\
    files w2 !! object_ids_file = Some (Parses (JArray (JAtom <$> ids'))).
Proof.
  intros Hrun.
  destruct (aggregate_object_ids_cases curl slot sub_boxes w)
    as (Hd & [(e & Hr & _)|(ids' & Hr & Hnd & Hf & Hdir & Hparent)]);
    rewrite Hrun in *; simpl in *; [done|].
  injection Hr as <-.
  exists (py_set slot' ids). eexists. split; [|split; [|split; [|split; [|split]]]].
  - apply aggregate_object_ids_reload.
    + rewrite Hf. apply lookup_insert_eq.
    + destruct w1; simpl in *; subst. by rewrite has_dir_World.
    + destruct w1; simpl in *; subst. by rewrite has_dir_World.
  - by apply py_set_id.
  - done.
  - done.
  - intros p Hp. simpl. by rewrite lookup_insert_ne.
  - simpl. apply lookup_insert_eq.
Qed.

Lemma aggregate_object_ids_memoized_witness :
  let w := World {[ ["data"; "svv"] ]} ∅ [] [] in
  let curl : service :=
    fun _ _ => Stdout (Parses (JObject [("objekter",
      JArray [JObject [("id", JInt 7)]; JObject [("id", JInt 3)]])])) in
  let slot : list atom -> atom -> nat :=
    fun _ a => match a with AInt n => Z.to_nat n | _ => 0%nat end in
  let slot' : list atom -> atom -> nat :=
    fun _ a => match a with AInt n => (10 - Z.to_nat n)%nat | _ => 0%nat end in
  let tiles : list BoundingBox :=
    [(PInt 0, PInt 0, PInt 5, PInt 5); (PInt 5, PInt 5, PInt 10, PInt 10)] in
  let w1 := (aggregate_object_ids curl slot tiles w).2 in
  exists ids' w2,
    aggregate_object_ids (fun _ _ => ExitNonZero) slot' [] w1 = (Ok ids', w2) /\
    ids' ≡ₚ [AInt 3; AInt 7] /\
    requests w2 = requests w1.
Proof.
  intros w curl slot slot' tiles w1.
  destruct (aggregate_object_ids_memoized curl (fun _ _ => ExitNonZero)
              slot slot' tiles [] w w1 [AInt 3; AInt 7])
    as (ids' & w2 & Hagain & Hperm & Hreq & _).
  - vm_compute. reflexivity.
  - exists ids', w2. split; [exact Hagain|]. split; [exact Hperm|exact Hreq].
Defined.

(** ** The script as a whole *)

Lemma collect_roads_data_dirs (curl : service) (all_object_ids : list atom)
    (roads_data : list (json * json)) (w : world) :
  dirs (collect_roads_data curl all_object_ids roads_data w).2 = dirs w.
Proof. by destruct (collect_roads_data_footprint curl all_object_ids roads_data w). Qed.

(** X17. The script creates no directory but [data] and [data/svv]; in
    particular it never creates [data/svv/object_ids], the directory of the
    per-id cache files. *)
Theorem main_directories (curl : service)
    (slot : list atom -> atom -> nat) (w : world) :
  (forall p, p ∈ dirs (main curl slot w).2 ->
     p ∈ dirs w \/ p = ["data"] \/ p = ["data"; "svv"]) /\
  (has_dir ["data"; "svv"; "object_ids"] w = false ->
   has_dir ["data"; "svv"; "object_ids"] (main curl slot w).2 = false).
Proof.
  assert (forall p, p ∈ dirs (main curl slot w).2 ->
            p ∈ dirs w \/ p = ["data"] \/ p = ["data"; "svv"]) as Hdirs.
  { unfold main. rewrite bind_eq. unfold makedirs at 1.
    destruct (has_file ["data"] w); [simpl; auto|].
    rewrite bind_eq. unfold makedirs at 1.
    match goal with |- context [has_file ["data"; "svv"] ?w1] =>
      destruct (has_file ["data"; "svv"] w1) end.
    { simpl. intros p Hp. set_solver. }
    rewrite bind_eq. unfold lift at 1.
    destruct (split_bounding_box initial_bbox grid_size) as [sub_boxes|e].
    2:{ simpl. intros p Hp. set_solver. }
    rewrite bind_eq.
    match goal with |- context [aggregate_object_ids curl slot sub_boxes ?w2] =>
      destruct (aggregate_object_ids_cases curl slot sub_boxes w2) as [Hd _];
      destruct (aggregate_object_ids curl slot sub_boxes w2) as [[ids|e] w3]
    end; simpl in Hd.
    - intros p. rewrite collect_roads_data_dirs, Hd. simpl. set_solver.
    - intros p. simpl. rewrite Hd. simpl. set_solver. }
  split; [done|].
  unfold has_dir. intros Hno. apply bool_decide_eq_false in Hno.
  apply bool_decide_eq_false. intros Hin.
  destruct (Hdirs _ Hin) as [?|[?|?]]; done.
Qed.

Lemma main_directories_witness :
  has_dir ["data"; "svv"; "object_ids"]
    (main (fun _ _ => ExitNonZero) (fun _ _ => 0%nat) (World ∅ ∅ [] [])).2
  = false.
Proof.
  apply (main_directories (fun _ _ => ExitNonZero) (fun _ _ => 0%nat)
           (World ∅ ∅ [] [])).
  vm_compute. reflexivity.
Defined.

(** X18. Where the directory of the cache files is missing, a detail
    request that is answered with valid JSON does not end in a detail: the
    call raises [FileNotFoundError] after its request, and no file and no
    directory is created. *)
Theorem fetch_object_details_needs_directory (curl : service)
    (object_id : atom) (w : world) (j : json) :
  has_file (object_file object_id) w = false ->
  has_dir (object_file object_id) w = false ->
  has_dir ["data"; "svv"; "object_ids"] w = false ->
  curl (requests w) (DetailReq object_id) = Stdout (Parses j) ->
  fetch_object_details curl object_id w
  = (Raise FileNotFoundError,
     World (dirs w) (files w) (requests w ++ [DetailReq object_id]) (output w)).
Proof.
  intros Hfile Hdir Hparent Hcurl. run.
  rewrite Hfile, Hdir. simpl. rewrite Hcurl. simpl.
  rewrite !has_dir_World, Hdir, Hparent. done.
Qed.

Lemma fetch_object_details_needs_directory_witness :
  let w := World {[ ["data"]; ["data"; "svv"] ]} ∅ [] [] in
  fetch_object_details (fun _ _ => Stdout (Parses (JObject []))) (AInt 7) w
  = (Raise FileNotFoundError, World (dirs w) ∅ [DetailReq (AInt 7)] []).
Proof.
  intros w.
  apply (fetch_object_details_needs_directory _ (AInt 7) w (JObject []));
    vm_compute; reflexivity.
Defined.

(** ** The renderer *)

Lemma rfold_cons {A S} (f : S -> A -> result S) (s : S) (x : A)
    (l : list A) :
  rfold f s (x :: l) = (let? s' := f s x in rfold f s' l).
Proof. reflexivity. Qed.

Lemma generate_map_fold (loads : string -> result shape)
    (transform : float -> float -> float * float) (roads_data : roads) :
  generate_map loads transform roads_data
  = rfold (draw_road loads transform (min_ådt roads_data) (max_ådt roads_data))
          [] roads_data.
Proof. reflexivity. Qed.

Lemma ådt_values_none (roads_data : roads) :
  (forall road, road ∈ roads_data -> road.2 = None) ->
  ådt_values roads_data = [].
Proof.
  induction roads_data as [|[g [v|]] rest IH]; intros Hall; [done| |].
  - by specialize (Hall (g, Some v) ltac:(by left)).
  - unfold ådt_values in *. simpl. apply IH. intros road Hin.
    apply Hall. by right.
Qed.

(** X19. Without a single traffic volume the scale defaults to
    0..10000 and [generate_map] draws nothing: it returns no line and never
    looks at a geometry. *)
Theorem generate_map_no_values (loads : string -> result shape)
    (transform : float -> float -> float * float) (roads_data : roads) :
  (forall road, road ∈ roads_data -> road.2 = None) ->
  min_ådt roads_data = 0 /\ max_ådt roads_data = 10000 /\
  generate_map loads transform roads_data = Ok [].
Proof.
  intros Hall. pose proof (ådt_values_none roads_data Hall) as Hnil.
  unfold min_ådt, max_ådt. rewrite Hnil. split; [done|]. split; [done|].
  rewrite generate_map_fold. generalize (min_ådt roads_data) (max_ådt roads_data).
  intros lo hi. clear Hnil. generalize (@nil polyline) as html.
  induction roads_data as [|[g v] rest IH]; intros html; [done|].
  pose proof (Hall (g, v) ltac:(by left)) as Hv. simpl in Hv. subst v.
  simpl. destruct g; simpl; apply IH; intros road Hin; apply Hall; by right.
Qed.

Lemma generate_map_no_values_witness :
  generate_map (fun _ => Raise GEOSException) (fun x y => (x, y))
               [(Some "LINESTRING (0 0, 1 1)"%string, None); (None, None)]
  = Ok [].
Proof.
  apply (generate_map_no_values (fun _ => Raise GEOSException)
           (fun x y => (x, y))
           [(Some "LINESTRING (0 0, 1 1)"%string, None); (None, None)]).
  intros road Hin. apply elem_of_cons in Hin as [->|Hin]; [done|].
  apply list_elem_of_singleton in Hin as ->. done.
Defined.

Lemma ådt_values_filter (roads_data : list (option string * option Z)) :
  ådt_values (filter (fun road => is_Some road.2) roads_data)
  = ådt_values roads_data.
Proof.
  unfold ådt_values.
  induction roads_data as [|[g [v|]] rest IH]; [done| |].
  - rewrite filter_cons. simpl. f_equal. apply IH.
  - rewrite filter_cons. simpl. apply IH.
Qed.

(** X20. Rows whose traffic volume is [None] play no part: removing them
    from [roads_data] changes neither the scale nor what [generate_map]
    returns or raises. *)
Theorem generate_map_skips_none (loads : string -> result shape)
    (transform : float -> float -> float * float)
    (roads_data : list (option string * option Z)) :
  generate_map loads transform
    (filter (fun road => is_Some road.2) roads_data)
  = generate_map loads transform roads_data.
Proof.
  rewrite !generate_map_fold. unfold min_ådt, max_ådt.
  rewrite ådt_values_filter.
  generalize (match ådt_values roads_data with
              | [] => 0 | x :: l => py_min x l end).
  generalize (match ådt_values roads_data with
              | [] => 10000 | x :: l => py_max x l end).
  intros hi lo. generalize (@nil polyline) as html.
  induction roads_data as [|[g [v|]] rest IH]; intros html; [done| |].
  - rewrite filter_cons, decide_True by (simpl; eauto).
    rewrite !rfold_cons.
    destruct (draw_road loads transform lo hi html (g, Some v)); [|done].
    apply IH.
  - rewrite filter_cons, decide_False by (simpl; by intros [? ?]).
    rewrite rfold_cons.
    replace (draw_road loads transform lo hi html (g, None)) with (Ok html)
      by (by destruct g).
    apply IH.
Qed.

(** A line drawn for a value of the scale: its points and its value. *)
Lemma draw_line (transform : float -> float -> float * float)
    (coords : list (float * float)) (v lo hi : Z) :
  lo < hi -> lo <= v <= hi ->
  exists line,
    draw transform coords v lo hi = Ok line /\
    (coordinates line, popup line)
    = ((fun c => ((transform c.1 c.2).2, (transform c.1 c.2).1)) <$> coords,
       v).
Proof.
  intros Hlt Hv. unfold draw.
  destruct (generate_color_in_range v lo hi Hlt Hv) as [c ->]. simpl.
  eexists. split; [done|]. simpl. f_equal.
  unfold transform_coordinates. by rewrite <- list_fmap_compose.
Qed.

Lemma rmap_draw_lines (transform : float -> float -> float * float)
    (geoms : list (list (float * float))) (v lo hi : Z) :
  lo < hi -> lo <= v <= hi ->
  exists lines,
    rmap (fun line => draw transform line v lo hi) geoms = Ok lines /\
    (fun line => (coordinates line, popup line)) <$> lines
    = (fun coords =>
         ((fun c => ((transform c.1 c.2).2, (transform c.1 c.2).1)) <$> coords,
          v)) <$> geoms.
Proof.
  intros Hlt Hv. induction geoms as [|coords geoms (lines & Hl & Hp)].
  - by exists [].
  - simpl.
    destruct (draw_line transform coords v lo hi Hlt Hv) as (line & -> & Hline).
    simpl. rewrite Hl. simpl. eexists. split; [done|].
    rewrite fmap_cons. by rewrite Hline, Hp.
Qed.

(** X23. On a scale with distinct ends and geometries that parse,
    [generate_map] draws, row by row in the order of [roads_data], one line
    for a [LineString] and one for each part of a [MultiLineString],
    nothing for another geometry or a row without geometry or value; a
    line carries its row's value, and its points are the transformed
    points with the two coordinates swapped. *)
Theorem generate_map_lines (loads : string -> result shape)
    (transform : float -> float -> float * float) (shape_of : string -> shape)
    (roads_data : roads) :
  min_ådt roads_data < max_ådt roads_data ->
  (forall g v, (Some g, Some v) ∈ roads_data -> loads g = Ok (shape_of g)) ->
  exists lines,
    generate_map loads transform roads_data = Ok lines /\
    (fun line => (coordinates line, popup line)) <$> lines
    = flat_map
        (fun road =>
           match road with
           | (Some g, Some v) =>
               let swapped (coords : list (float * float)) :=
                 (fun c => ((transform c.1 c.2).2, (transform c.1 c.2).1))
                   <$> coords in
               match shape_of g with
               | MultiLineString geoms =>
                   (fun coords => (swapped coords, v)) <$> geoms
               | LineString coords => [(swapped coords, v)]
               | OtherGeometry => []
               end
           | _ => []
           end)
        roads_data.
Proof.
  intros Hlt Hloads. rewrite generate_map_fold.
  assert (forall g v, (g, Some v) ∈ roads_data ->
            min_ådt roads_data <= v <= max_ådt roads_data) as Hcov
    by (intros g v; apply scale_covers).
  revert Hlt Hcov. generalize (min_ådt roads_data) (max_ådt roads_data).
  intros lo hi Hlt Hcov.
  assert (forall html,
    exists added,
      rfold (draw_road loads transform lo hi) html roads_data
        = Ok (html ++ added) /\
      (fun line => (coordinates line, popup line)) <$> added
      = flat_map
          (fun road =>
             match road with
             | (Some g, Some v) =>
                 let swapped (coords : list (float * float)) :=
                   (fun c => ((transform c.1 c.2).2, (transform c.1 c.2).1))
                     <$> coords in
                 match shape_of g with
                 | MultiLineString geoms =>
                     (fun coords => (swapped coords, v)) <$> geoms
                 | LineString coords => [(swapped coords, v)]
                 | OtherGeometry => []
                 end
             | _ => []
             end)
          roads_data) as Hloop.
  { induction roads_data as [|[g v] rest IH]; intros html.
    - exists []. by rewrite app_nil_r.
    - assert (forall g v, (Some g, Some v) ∈ rest -> loads g = Ok (shape_of g))
        as Hrest by (intros g' v' Hin; apply (Hloads g' v'); by right).
      assert (forall g v, (g, Some v) ∈ rest -> lo <= v <= hi) as Hcov'
        by (intros g' v' Hin; apply (Hcov g' v'); by right).
      specialize (IH Hrest Hcov'). rewrite rfold_cons.
      destruct g as [g|], v as [v|];
        try (destruct (IH html) as (added & Hrun & Hp);
             exists added; simpl; by rewrite Hrun).
      assert (lo <= v <= hi) as Hv by (apply (Hcov (Some g)); by left).
      simpl. rewrite (Hloads g v) by (by left). simpl.
      destruct (shape_of g) as [geoms|coords|].
      + destruct (rmap_draw_lines transform geoms v lo hi Hlt Hv)
          as (lines & -> & Hlines). simpl.
        destruct (IH (html ++ lines)) as (added & Hrun & Hp).
        exists (lines ++ added). rewrite Hrun, app_assoc. split; [done|].
        by rewrite fmap_app, Hlines, Hp.
      + destruct (draw_line transform coords v lo hi Hlt Hv)
          as (line & -> & Hline). simpl.
        destruct (IH (html ++ [line])) as (added & Hrun & Hp).
        exists (line :: added). rewrite Hrun, <- app_assoc. split; [done|].
        rewrite fmap_cons, Hp. simpl. by rewrite Hline.
      + simpl. destruct (IH html) as (added & Hrun & Hp).
        exists added. by rewrite Hrun. }
  destruct (Hloop []) as (added & Hrun & Hp). by exists added.
Qed.

Lemma generate_map_lines_witness :
  let roads_data : roads :=
    [(Some "a"%string, Some 100); (None, Some 5);
     (Some "b"%string, Some 900)] in
  let p (x y : Z) : float * float := (float_of_Z x, float_of_Z y) in
  let shape_of : string -> shape :=
    fun g => if String.eqb g "a" then LineString [p 1 2]
             else MultiLineString [[p 3 4]; [p 5 6]] in
  exists lines,
    generate_map (fun g => Ok (shape_of g)) (fun x y => (x, y)) roads_data
      = Ok lines /\
    (fun line => (coordinates line, popup line)) <$> lines
    = [([p 2 1], 100); ([p 4 3], 900); ([p 6 5], 900)].
Proof.
  intros roads_data p shape_of.
  destruct (generate_map_lines (fun g => Ok (shape_of g)) (fun x y => (x, y))
              shape_of roads_data) as (lines & Hrun & Hp).
  - reflexivity.
  - reflexivity.
  - exists lines. split; [exact Hrun|]. rewrite Hp. reflexivity.
Defined.

(** ** The colour scale of [telia.py] *)

(** X24. The colour scale of [telia.py] guards the division that the one
    of [ssv.py] does not: when the greatest value does not exceed the
    least, every value is drawn in [rgb(0,255,0)]; when it does, the two
    scales do the same, and for integer values of the scale both return
    the same colour. *)
Theorem telia_generate_color_guarded (min_val max_val val : num) :
  (py_gt max_val min_val = false ->
   Telia.generate_color min_val max_val val = Ok "rgb(0,255,0)") /\
  (py_gt max_val min_val = true ->
   generate_color val min_val max_val
   = Telia.generate_color min_val max_val val) /\
  (forall v lo hi : Z,
     val = PInt v -> min_val = PInt lo -> max_val = PInt hi ->
     lo < hi -> lo <= v <= hi ->
     exists c,
       generate_color val min_val max_val = Ok c /\
       Telia.generate_color min_val max_val val = Ok c).
Proof.
  assert (py_gt max_val min_val = true ->
          generate_color val min_val max_val
          = Telia.generate_color min_val max_val val) as Hsame.
  { intros H. unfold Telia.generate_color, generate_color. rewrite H.
    destruct (py_sub val min_val) as [offset|]; [|done]. simpl.
    destruct (py_sub max_val min_val) as [span|]; [|done]. simpl.
    destruct (py_truediv offset span) as [norm_value|]; [|done]. done. }
  split; [|split].
  - intros H. unfold Telia.generate_color. rewrite H. reflexivity.
  - done.
  - intros v lo hi -> -> -> Hlt Hv.
    destruct (generate_color_in_range v lo hi Hlt Hv) as [c Hc].
    exists c. split; [done|]. rewrite <- Hsame; [done|].
    unfold py_gt. simpl. by rewrite (proj2 (Z.compare_gt_iff hi lo)) by lia.
Qed.

Lemma telia_generate_color_guarded_witness :
  Telia.generate_color (PInt 100) (PInt 100) (PInt 100) = Ok "rgb(0,255,0)" /\
  generate_color (PInt 500) (PInt 100) (PInt 900)
  = Telia.generate_color (PInt 100) (PInt 900) (PInt 500).
Proof.
  split.
  - apply (telia_generate_color_guarded (PInt 100) (PInt 100) (PInt 100)).
    reflexivity.
  - apply (telia_generate_color_guarded (PInt 100) (PInt 900) (PInt 500)).
    reflexivity.
Defined.

(** ** A run from a filled cache *)

(** X25. Whatever it returns or raises, [fetch_nvdb_kartutsnitt] issues
    exactly one request, the catalog request for its tile, and creates or
    changes no file or directory: what its docstring announces as saved is
    not saved. *)
Theorem fetch_nvdb_kartutsnitt_frame (curl : service) (bbox : BoundingBox)
    (w : world) :
  let w' := (fetch_nvdb_kartutsnitt curl bbox w).2 in
  dirs w' = dirs w /\ files w' = files w /\
  requests w' = requests w ++ [CatalogReq bbox].
Proof. apply fetch_nvdb_kartutsnitt_world. Qed.



